(** * Master availability and job matching (schedule_manager.py, main.py)

    A shallow embedding of [ScheduleManager] (src/schedule_manager.py) and of
    [find_available_master] (src/main.py), with the properties of the
    availability engine, the matching policy and the booking coordinator.

    Modelling conventions.
    - The [masters] table is a list of rows, in the order in which an
      unordered [SELECT] enumerates them.
    - A calendar date is its proleptic Gregorian ordinal
      ([date.toordinal()]).  Every operation uses its [datetime] argument only
      through [strftime("%Y-%m-%d")], and the serialised [DaySchedule] keeps
      only the calendar date, so the time of day of these arguments is not
      represented.
    - A point in time ([datetime.now()], the stored confirmation stamp) is a
      number of microseconds, the resolution of [timedelta].
    - A REAL column holds binary64 numbers.  A value of such a column is
      written as the rational number it equals, and the order of the column
      is the order of these rationals; in the examples a decimal such as 4.9
      stands for the binary64 number nearest to it.  The score of the
      matching is computed in binary64, as Python computes it.
    - Functions of the Python library and of the SQL engine that the code
      calls ([strftime], [time.fromisoformat], the [LIKE] operator) are
      parameters of the development. *)

From Stdlib Require Import ZArith QArith Lqa Lia String Ascii List Sorted.
From Stdlib Require Import Permutation SpecFloat.
From stdpp Require Import base option list gmap strings pretty.

Local Open Scope Z_scope.

(** ** Wall-clock times ([datetime.time]) *)

Record time := mk_time {
  hour : Z;
  minute : Z;
  second : Z;
  microsecond : Z
}.

(** [time] objects compare as the tuples (hour, minute, second,
    microsecond). *)
Definition time_compare (a b : time) : comparison :=
  match hour a ?= hour b with
  | Eq =>
      match minute a ?= minute b with
      | Eq =>
          match second a ?= second b with
          | Eq => microsecond a ?= microsecond b
          | c => c
          end
      | c => c
      end
  | c => c
  end.

Definition time_leb (a b : time) : bool :=
  match time_compare a b with
  | Gt => false
  | _ => true
  end.

(** The range of the fields of a [time] object, and its offset from
    midnight in microseconds. *)
Definition time_valid (t : time) : Prop :=
  0 <= hour t < 24 /\ 0 <= minute t < 60 /\ 0 <= second t < 60
  /\ 0 <= microsecond t < 1000000.

Definition microseconds_of_day (t : time) : Z :=
  ((hour t * 60 + minute t) * 60 + second t) * 1000000 + microsecond t.

(** ** Exceptions and the store monad *)

Inductive exn := ValueError.

Inductive result (A : Type) :=
  | Return (a : A)
  | Raise (e : exn).
Arguments Return {A} a.
Arguments Raise {A} e.

(** ** TimeSlot and DaySchedule *)

Record TimeSlot := mk_TimeSlot {
  slot_start : time;
  slot_end : time
}.

(** [TimeSlot.__contains__]: [self.start <= check_time <= self.end]. *)
Definition TimeSlot_contains (self : TimeSlot) (check_time : time) : bool :=
  time_leb (slot_start self) check_time && time_leb check_time (slot_end self).

Record DaySchedule := mk_DaySchedule {
  date : Z;
  available : bool;
  time_slot : option TimeSlot;
  booked_jobs : list Z
}.

(** [DaySchedule.is_available_at]. *)
Definition is_available_at (self : DaySchedule) (check_time : time) : bool :=
  if negb (available self) then false
  else match time_slot self with
       | None => false
       | Some slot => TimeSlot_contains slot check_time
       end.

(** [self.booked_jobs.append(job_id)]. *)
Definition booked_jobs_append (self : DaySchedule) (job_id : Z) : DaySchedule :=
  mk_DaySchedule (date self) (available self) (time_slot self)
    (booked_jobs self ++ [job_id]).

(** ** The masters table *)

Record Master := mk_Master {
  id : Z;
  is_active : bool;
  terminal_active : bool;
  city : string;
  specializations : string;
  rating : option Q;
  schedule_json : option (gmap string DaySchedule);
  last_schedule_confirmation : option Z
}.

Definition DB := list Master.

Definition M (A : Type) : Type := DB -> result A * DB.

Definition ret {A} (a : A) : M A := fun db => (Return a, db).
Definition raise {A} (e : exn) : M A := fun db => (Raise e, db).
Definition bind {A B} (m : M A) (k : A -> M B) : M B :=
  fun db =>
    match m db with
    | (Return a, db') => k a db'
    | (Raise e, db') => (Raise e, db')
    end.
Definition gets {A} (f : DB -> A) : M A := fun db => (Return (f db), db).
Definition modify (f : DB -> DB) : M unit := fun db => (Return tt, f db).

Declare Scope store_scope.
Delimit Scope store_scope with store.
Notation "'do' x <- m ; k" := (bind m (fun x => k))
  (at level 10, x name, m at level 100, k at level 200) : store_scope.
Notation "m ;; k" := (bind m (fun _ => k))
  (at level 100, k at level 200, right associativity) : store_scope.

(** ** Python truthiness and small list helpers *)

(** [bool(s)] for an [Optional[str]]: [None] and the empty string are false. *)
Definition truthy (s : option string) : bool :=
  match s with
  | Some (String _ _) => true
  | _ => false
  end.

Definition str_of (s : option string) : string := default EmptyString s.

(** [x in l] for a list of integers. *)
Definition Zmem (x : Z) (l : list Z) : bool := existsb (Z.eqb x) l.

(** A stable sort in descending key order, the contract of
    [list.sort(key=..., reverse=True)]: elements with equal keys keep their
    relative order.  [ltb] is the strict order on keys. *)
Section StableSort.
Context {A K : Type} (key : A -> K) (ltb : K -> K -> bool).

Fixpoint insert_desc (x : A) (l : list A) : list A :=
  match l with
  | [] => [x]
  | y :: l' =>
      if ltb (key x) (key y) then y :: insert_desc x l' else x :: y :: l'
  end.

Fixpoint sort_desc (l : list A) : list A :=
  match l with
  | [] => []
  | x :: l' => insert_desc x (sort_desc l')
  end.
End StableSort.

Definition Qltb (a b : Q) : bool := negb (Qle_bool b a).

(** ** Binary64 numbers (Python's [float])

    The operations are those of the specification of IEEE 754 arithmetic in
    the Standard Library, with rounding to nearest, ties to even. *)
Definition prec : Z := 53.
Definition emax : Z := 1024.

(** [float(n)] for an integer. *)
Definition float_of_int (n : Z) : spec_float :=
  binary_normalize prec emax n 0 false.

Definition float_mul (x y : spec_float) : spec_float := SFmul prec emax x y.
Definition float_sub (x y : spec_float) : spec_float := SFsub prec emax x y.

(** The binary64 number that the REAL column holds for the rating [q]: the
    quotient, rounded once, of its numerator and denominator (both exact
    below 2^53). *)
Definition float_of_rating (q : Q) : spec_float :=
  SFdiv prec emax (float_of_int (Qnum q)) (float_of_int (Zpos (Qden q))).

(** The place of a binary64 number in the order of [<]: its class (the
    infinities, the negative and the positive numbers, zero of either sign),
    then exponent and mantissa.  [SFltb] compares numbers by it; NaN, which
    [SFltb] puts below and above nothing, is given the place of zero. *)
Definition float_rank (x : spec_float) : Z * Z * Z :=
  match x with
  | S754_infinity true => (-2, 0, 0)
  | S754_finite true m e => (-1, - e, - Zpos m)
  | S754_zero _ | S754_nan => (0, 0, 0)
  | S754_finite false m e => (1, e, Zpos m)
  | S754_infinity false => (2, 0, 0)
  end.

Definition rank_lt (a b : Z * Z * Z) : Prop :=
  let '(c1, e1, m1) := a in
  let '(c2, e2, m2) := b in
  c1 < c2 \/ (c1 = c2 /\ (e1 < e2 \/ (e1 = e2 /\ m1 < m2))).

(** The order of [ORDER BY rating]: NULL sorts below every number. *)
Definition rating_ltb (a b : option Q) : bool :=
  match a, b with
  | None, Some _ => true
  | Some x, Some y => Qltb x y
  | _, None => false
  end.

(** ** Stand-ins for the library functions, used by the examples

    The operations below are parametric in [strftime], [time.fromisoformat]
    and [LIKE].  These instances make the closed examples computable. *)

(** A renderer of calendar dates that is one-to-one, as
    [strftime("%Y-%m-%d")] is on dates. *)
Definition strftime_ordinal (d : Z) : string := pretty d.

Definition digit (c : ascii) : option Z :=
  let n := Z.of_nat (nat_of_ascii c) - 48 in
  if (0 <=? n) && (n <=? 9) then Some n else None.

(** The "HH:MM" fragment of [time.fromisoformat]. *)
Definition fromisoformat_hhmm (s : string) : option time :=
  match s with
  | String h1 (String h2 (String ":" (String m1 (String m2 EmptyString)))) =>
      match digit h1, digit h2, digit m1, digit m2 with
      | Some a, Some b, Some c, Some d =>
          let h := 10 * a + b in
          let m := 10 * c + d in
          if (h <? 24) && (m <? 60) then Some (mk_time h m 0 0) else None
      | _, _, _, _ => None
      end
  | _ => None
  end.

(** Case-sensitive substring test, the reading of [text LIKE '%tag%'] on
    tags without wildcard characters or letters of differing case. *)
Fixpoint contains (text tag : string) : bool :=
  String.prefix tag text ||
  match text with
  | EmptyString => false
  | String _ text' => contains text' tag
  end.

(** ** ScheduleManager *)

Section ScheduleManager.

(** [strftime d] is [date.strftime("%Y-%m-%d")] on the calendar date [d];
    [fromisoformat s] is [time.fromisoformat(s)], [None] standing for its
    [ValueError]; [like text tag] is the SQL condition
    [text LIKE '%' || tag || '%']. *)
Context (strftime : Z -> string).
Context (fromisoformat : string -> option time).
Context (like : string -> string -> bool).

Definition time_fromisoformat (s : string) : M time :=
  match fromisoformat s with
  | Some t => ret t
  | None => raise ValueError
  end.

(** [SELECT ... FROM masters WHERE id = ?] followed by [fetchone()]. *)
Definition fetch_master (db : DB) (master_id : Z) : option Master :=
  List.find (fun r => id r =? master_id) db.

Definition with_schedule (r : Master) (s : gmap string DaySchedule) : Master :=
  mk_Master (id r) (is_active r) (terminal_active r) (city r)
    (specializations r) (rating r) (Some s) (last_schedule_confirmation r).

Definition with_confirmation (r : Master) (stamp : Z) : Master :=
  mk_Master (id r) (is_active r) (terminal_active r) (city r)
    (specializations r) (rating r) (schedule_json r) (Some stamp).

(** [UPDATE masters SET schedule_json = ? WHERE id = ?]. *)
Definition set_master_schedule (master_id : Z)
    (schedule : gmap string DaySchedule) : M unit :=
  modify
    (map (fun r => if id r =? master_id then with_schedule r schedule else r)).

(** No row, a NULL column or an empty string give the empty dict. *)
Definition get_master_schedule (db : DB) (master_id : Z)
    : gmap string DaySchedule :=
  match fetch_master db master_id with
  | Some r => default ∅ (schedule_json r)
  | None => ∅
  end.

Definition update_day_schedule (master_id : Z) (date : Z) (available : bool)
    (start_time end_time : option string) : M unit :=
  (do schedule <- gets (fun db => get_master_schedule db master_id);
   let date_key := strftime date in
   do time_slot <-
     (if available && truthy start_time && truthy end_time then
        do s <- time_fromisoformat (str_of start_time);
        do e <- time_fromisoformat (str_of end_time);
        ret (Some (mk_TimeSlot s e))
      else ret None);
   set_master_schedule master_id
     (<[date_key :=
          mk_DaySchedule date available time_slot
            (booked_jobs
               (default (mk_DaySchedule date false None [])
                  (schedule !! date_key)))]> schedule))%store.

(** [if check_time:] tests for [None]: a [time] object is always true. *)
Definition is_master_available (db : DB) (master_id : Z) (date : Z)
    (check_time : option time) : bool :=
  let schedule := get_master_schedule db master_id in
  let date_key := strftime date in
  match schedule !! date_key with
  | None => false
  | Some day_schedule =>
      match check_time with
      | Some t => is_available_at day_schedule t
      | None => available day_schedule
      end
  end.

Definition get_available_masters (db : DB) (specialization city0 : string)
    (date : Z) (check_time : option time) : list Z :=
  let all_masters :=
    map id
      (List.filter
         (fun r => is_active r && String.eqb (city r) city0
                   && like (specializations r) specialization) db) in
  List.filter (fun master_id => is_master_available db master_id date check_time)
    all_masters.

Definition book_master_for_job (master_id job_id : Z) (date : Z) : M unit :=
  (do schedule <- gets (fun db => get_master_schedule db master_id);
   let date_key := strftime date in
   match schedule !! date_key with
   | Some day =>
       set_master_schedule master_id
         (<[date_key :=
              booked_jobs_append day job_id]> schedule)
   | None => ret tt
   end)%store.

(** [now] is [datetime.now()]. *)
Definition confirm_daily_schedule (master_id : Z) (now : Z) : M bool :=
  (modify
     (map (fun r => if id r =? master_id then with_confirmation r now else r));;
   ret true)%store.

Definition hours (n : Z) : Z := n * 3600 * 1000000.

Definition needs_schedule_confirmation (db : DB) (master_id : Z) (now : Z)
    : bool :=
  match fetch_master db master_id with
  | None => true
  | Some r =>
      match last_schedule_confirmation r with
      | None => true
      | Some last_confirmation => hours 12 <? now - last_confirmation
      end
  end.

(** [date.weekday()]: Monday is 0; ordinal 1 is a Monday. *)
Definition weekday (d : Z) : Z := (d + 6) mod 7.

(** The body of [for i in range(7)], over the remaining values of [i]. *)
Fixpoint weekly_loop (default_start default_end : string)
    (working_days : list Z) (today : Z) (range : list Z)
    (schedule : gmap string DaySchedule) : M (gmap string DaySchedule) :=
  match range with
  | [] => ret schedule
  | i :: range' =>
      (let date := today + i in
       let available := Zmem (weekday date) working_days in
       do time_slot <-
         (if available then
            do s <- time_fromisoformat default_start;
            do e <- time_fromisoformat default_end;
            ret (Some (mk_TimeSlot s e))
          else ret None);
       weekly_loop default_start default_end working_days today range'
         (<[strftime date := mk_DaySchedule date available time_slot []]>
            schedule))%store
  end.

(** [today] is [datetime.now().date()]. *)
Definition create_weekly_schedule (master_id : Z)
    (default_start default_end : string) (working_days : option (list Z))
    (today : Z) : M unit :=
  (let working_days := default [0; 1; 2; 3; 4] working_days in
   do schedule <-
     weekly_loop default_start default_end working_days today
       [0; 1; 2; 3; 4; 5; 6] ∅;
   set_master_schedule master_id schedule)%store.

Definition get_master_workload (db : DB) (master_id : Z) (date : Z) : Z :=
  let schedule := get_master_schedule db master_id in
  let date_key := strftime date in
  match schedule !! date_key with
  | None => 0
  | Some day => Z.of_nat (length (booked_jobs day))
  end.

(** [rating or 5.0]: NULL and zero are both false in Python. *)
Definition rating_or_default (r : option Q) : spec_float :=
  match r with
  | Some q =>
      let x := float_of_rating q in
      if SFeqb x (S754_zero false) then float_of_rating 5 else x
  | None => float_of_rating 5
  end.

(** [SELECT rating FROM masters WHERE id = ?]; the ids come from the table,
    so the row is always found. *)
Definition fetch_rating (db : DB) (master_id : Z) : option Q :=
  match fetch_master db master_id with
  | Some r => rating r
  | None => None
  end.

(** [(rating * 10) - workload], a product and a difference of floats: the
    two integers are converted first. *)
Definition score (db : DB) (date : Z) (master_id : Z) : spec_float :=
  let rating := rating_or_default (fetch_rating db master_id) in
  let workload := get_master_workload db master_id date in
  float_sub (float_mul rating (float_of_int 10)) (float_of_int workload).

Definition find_best_available_master (db : DB)
    (specialization city0 : string) (date : Z) (check_time : option time)
    : option Z :=
  let available_masters :=
    get_available_masters db specialization city0 date check_time in
  match available_masters with
  | [] => None
  | _ =>
      let master_scores :=
        map (fun master_id => (master_id, score db date master_id))
          available_masters in
      match sort_desc snd SFltb master_scores with
      | [] => None
      | best :: _ => Some (fst best)
      end
  end.

(** main.py: the rating-only lookup of the job-intake flow.  [ORDER BY rating
    DESC LIMIT 1] is the head of the rows sorted by descending rating; rows of
    equal rating are taken in scan order. *)
Definition find_available_master (db : DB) (category city0 : string)
    : option Z :=
  let rows :=
    List.filter
      (fun r => is_active r && terminal_active r && String.eqb (city r) city0
                && like (specializations r) category) db in
  match sort_desc rating rating_ltb rows with
  | [] => None
  | r :: _ => Some (id r)
  end.

End ScheduleManager.

(** ** Vocabulary of the statements *)

(** [master_id] names a row of the masters table. *)
Definition has_master (db : DB) (master_id : Z) : Prop :=
  exists r, fetch_master db master_id = Some r.

(** The DaySchedule invariant of the data model: no time slot on a day that
    is not available. *)
Definition DaySchedule_inv (e : DaySchedule) : Prop :=
  available e = false -> time_slot e = None.

Definition schedule_inv (s : gmap string DaySchedule) : Prop :=
  forall k e, s !! k = Some e -> DaySchedule_inv e.

Definition db_inv (db : DB) : Prop :=
  forall r, In r db -> schedule_inv (default ∅ (schedule_json r)).

(** The mutating operations of the claims, as commands. *)
Inductive command :=
  | SetDay (master_id date : Z) (available : bool)
      (start_time end_time : option string)
  | CreateWeekly (master_id : Z) (default_start default_end : string)
      (working_days : option (list Z)) (today : Z)
  | Book (master_id job_id date : Z).

Definition run (strftime : Z -> string) (fromisoformat : string -> option time)
    (c : command) : M unit :=
  match c with
  | SetDay m d a s e => update_day_schedule strftime fromisoformat m d a s e
  | CreateWeekly m s e w t =>
      create_weekly_schedule strftime fromisoformat m s e w t
  | Book m j d => book_master_for_job strftime m j d
  end.

(** The store after a sequence of commands; a command that raises leaves the
    store as it was and the next one runs. *)
Definition run_all (strftime : Z -> string)
    (fromisoformat : string -> option time) (cs : list command) (db : DB) : DB :=
  fold_left (fun db c => snd (run strftime fromisoformat c db)) cs db.

(** The rows that the query of [find_available_master] selects. *)
Definition eligible (like : string -> string -> bool) (category city0 : string)
    (r : Master) : bool :=
  is_active r && terminal_active r && String.eqb (city r) city0
  && like (specializations r) category.

(** A row with its stored schedule replaced, everything else kept. *)
Definition with_schedule_json (r : Master)
    (s : option (gmap string DaySchedule)) : Master :=
  mk_Master (id r) (is_active r) (terminal_active r) (city r)
    (specializations r) (rating r) s (last_schedule_confirmation r).

(** The score in the words of the specification and of the comment in the
    code: [rating * 10 - workload] on the stored rating, the rating of a
    master without stored rating being the default 5.0. *)
Definition nominal_score (strftime : Z -> string) (db : DB) (d : Z)
    (master_id : Z) : Q :=
  (default 5%Q (fetch_rating db master_id) * 10
   - inject_Z (get_master_workload strftime db master_id d))%Q.

(** The slot that [update_day_schedule] builds, or the [ValueError] of
    [time.fromisoformat]. *)
Definition parsed_slot (fromisoformat : string -> option time)
    (available : bool) (start_time end_time : option string)
    : result (option TimeSlot) :=
  if available && truthy start_time && truthy end_time then
    match fromisoformat (str_of start_time) with
    | None => Raise ValueError
    | Some s =>
        match fromisoformat (str_of end_time) with
        | None => Raise ValueError
        | Some e => Return (Some (mk_TimeSlot s e))
        end
    end
  else Return None.

Definition kept_jobs (old : option DaySchedule) : list Z :=
  match old with
  | Some entry => booked_jobs entry
  | None => []
  end.

(** The entry that one iteration of the loop writes. *)
Definition weekly_entry (s e : time) (working_days : list Z) (d : Z)
    : DaySchedule :=
  mk_DaySchedule d (Zmem (weekday d) working_days)
    (if Zmem (weekday d) working_days then Some (mk_TimeSlot s e) else None) [].

Definition weekly_fold (strftime : Z -> string) (s e : time)
    (working_days : list Z) (today : Z) (range : list Z) (schedule : gmap string DaySchedule)
    : gmap string DaySchedule :=
  fold_left
    (fun sch i =>
       <[strftime (today + i) := weekly_entry s e working_days (today + i)]> sch)
    range schedule.

(** ** Serialisation of a day ([to_dict] and [from_dict])

    [set_master_schedule] stores [json.dumps] of the [to_dict] images and
    [get_master_schedule] rebuilds the entries with [from_dict]. *)

(** The JSON object of a slot: [{"start": ..., "end": ...}]. *)
Record TimeSlotDict := mk_TimeSlotDict {
  ts_start : string;
  ts_end : string
}.

(** The JSON object of a day.  ["time_slot"] is [None] when the key is
    missing, null or an empty object; ["booked_jobs"] is [None] when the key
    is missing. *)
Record DayDict := mk_DayDict {
  dd_date : string;
  dd_available : bool;
  dd_time_slot : option TimeSlotDict;
  dd_booked_jobs : option (list Z)
}.

Section Serialisation.

(** [strptime s] is [datetime.strptime(s, "%Y-%m-%d")] and [isoformat t] is
    [t.isoformat()]; [None] stands for the [ValueError] of a parser. *)
Context (strftime : Z -> string).
Context (strptime : string -> option Z).
Context (isoformat : time -> string).
Context (fromisoformat : string -> option time).

Definition TimeSlot_to_dict (self : TimeSlot) : TimeSlotDict :=
  mk_TimeSlotDict (isoformat (slot_start self)) (isoformat (slot_end self)).

Definition TimeSlot_from_dict (data : TimeSlotDict) : result TimeSlot :=
  match fromisoformat (ts_start data) with
  | None => Raise ValueError
  | Some s =>
      match fromisoformat (ts_end data) with
      | None => Raise ValueError
      | Some e => Return (mk_TimeSlot s e)
      end
  end.

Definition DaySchedule_to_dict (self : DaySchedule) : DayDict :=
  mk_DayDict (strftime (date self)) (available self)
    (match time_slot self with
     | Some slot => Some (TimeSlot_to_dict slot)
     | None => None
     end)
    (Some (booked_jobs self)).

Definition DaySchedule_from_dict (data : DayDict) : result DaySchedule :=
  match strptime (dd_date data) with
  | None => Raise ValueError
  | Some d =>
      match dd_time_slot data with
      | Some slot_data =>
          match TimeSlot_from_dict slot_data with
          | Return slot =>
              Return (mk_DaySchedule d (dd_available data) (Some slot)
                        (default [] (dd_booked_jobs data)))
          | Raise e => Raise e
          end
      | None =>
          Return (mk_DaySchedule d (dd_available data) None
                    (default [] (dd_booked_jobs data)))
      end
  end.

End Serialisation.

(** Stand-ins for the examples: times written "HH:MM:SS", read from "HH:MM"
    or "HH:MM:SS", and the reader of the dates that [strftime_ordinal]
    writes. *)
Definition two_digits (n : Z) : string :=
  String (ascii_of_nat (Z.to_nat (48 + n / 10)))
    (String (ascii_of_nat (Z.to_nat (48 + n mod 10))) EmptyString).

Definition isoformat_hms (t : time) : string :=
  (two_digits (hour t) ++ ":" ++ two_digits (minute t) ++ ":"
   ++ two_digits (second t))%string.

Definition fromisoformat_hms (s : string) : option time :=
  match s with
  | String h1 (String h2 (String ":" (String m1 (String m2 rest)))) =>
      match digit h1, digit h2, digit m1, digit m2 with
      | Some a, Some b, Some c, Some d =>
          let h := 10 * a + b in
          let m := 10 * c + d in
          match rest with
          | EmptyString =>
              if (h <? 24) && (m <? 60) then Some (mk_time h m 0 0) else None
          | String ":" (String s1 (String s2 EmptyString)) =>
              match digit s1, digit s2 with
              | Some e, Some f =>
                  let sec := 10 * e + f in
                  if (h <? 24) && (m <? 60) && (sec <? 60)
                  then Some (mk_time h m sec 0) else None
              | _, _ => None
              end
          | _ => None
          end
      | _, _, _, _ => None
      end
  | _ => None
  end.

Fixpoint parse_digits (s : string) (acc : Z) : option Z :=
  match s with
  | EmptyString => Some acc
  | String c s' =>
      match digit c with
      | Some n => parse_digits s' (10 * acc + n)
      | None => None
      end
  end.

Definition strptime_ordinal (s : string) : option Z :=
  match s with
  | EmptyString => None
  | _ => parse_digits s 0
  end.

(** ** main.py: the endpoints on the masters table *)

Module Main.

(** The outcome of a request handler: its response body, or an
    [HTTPException] with its status code (the detail text is not
    represented). *)
Inductive http_result (A : Type) :=
  | Respond (body : A)
  | HTTPException (status_code : Z).
Arguments Respond {A} body.
Arguments HTTPException {A} status_code.

Definition with_terminal_active (r : Master) (b : bool) : Master :=
  mk_Master (id r) (is_active r) b (city r) (specializations r) (rating r)
    (schedule_json r) (last_schedule_confirmation r).

(** [cursor.rowcount] after [UPDATE masters ... WHERE id = ?]. *)
Definition rowcount (db : DB) (master_id : Z) : nat :=
  length (List.filter (fun r => id r =? master_id) db).

(** [POST /api/v1/masters/{master_id}/activate-terminal]; the body of the
    response is constant but for the id. *)
Definition activate_terminal (master_id : Z) (db : DB)
    : http_result unit * DB :=
  let db' :=
    map (fun r => if id r =? master_id then with_terminal_active r true else r)
      db in
  if (rowcount db master_id =? 0)%nat then (HTTPException 404, db)
  else (Respond tt, db').

(** [PATCH /api/v1/masters/{master_id}/terminal]; [data] is the truth value
    of [data.get('terminal_active', False)], [None] when the key is missing.
    The response repeats the value. *)
Definition update_terminal_status (master_id : Z) (data : option bool)
    (db : DB) : http_result bool * DB :=
  let terminal_active := default false data in
  (Respond terminal_active,
   map (fun r =>
          if id r =? master_id then with_terminal_active r terminal_active
          else r) db).

Section Listing.

Context (like : string -> string -> bool).

(** [GET /api/v1/masters/available/{category}]: the rows of the response,
    of which it reports the columns id, full_name, specializations, city and
    rating; its ["count"] is their number. *)
Definition get_available_masters (category : string) (city0 : option string)
    (db : DB) : list Master :=
  sort_desc rating rating_ltb
    (List.filter
       (fun r =>
          is_active r && terminal_active r
          && like (specializations r) category
          && (if truthy city0 then String.eqb (city r) (str_of city0)
              else true)) db).

End Listing.

(** *** The jobs table *)

Record Job := mk_Job {
  job_id : Z;
  client_name : string;
  client_phone : string;
  category : string;
  problem_description : string;
  address : string;
  estimated_price : option Q;
  status : string;
  master_id : option Z;
  created_at : Z;
  master_departed_at : option Z;
  master_arrived_at : option Z;
  client_phone_revealed : bool;
  master_location_lat : option Q;
  master_location_lon : option Q;
  route_screenshot_url : option string;
  google_calendar_event_id : option string;
  google_task_id : option string
}.

(** The rows of [jobs] and the counter that SQLite keeps for its
    [AUTOINCREMENT] key: the largest id ever given. *)
Record Jobs := mk_Jobs {
  job_rows : list Job;
  job_seq : Z
}.

Definition update_jobs (p : Job -> bool) (f : Job -> Job) (t : Jobs) : Jobs :=
  mk_Jobs (map (fun j => if p j then f j else j) (job_rows t)) (job_seq t).

(** [cursor.rowcount] after an [UPDATE jobs ... WHERE p]. *)
Definition jobs_rowcount (p : Job -> bool) (t : Jobs) : nat :=
  length (List.filter p (job_rows t)).

Definition with_status (j : Job) (s : string) : Job :=
  mk_Job (job_id j) (client_name j) (client_phone j) (category j)
    (problem_description j) (address j) (estimated_price j) s (master_id j)
    (created_at j) (master_departed_at j) (master_arrived_at j)
    (client_phone_revealed j) (master_location_lat j) (master_location_lon j)
    (route_screenshot_url j) (google_calendar_event_id j) (google_task_id j).



Definition job_statuses : list string :=
  ["pending"; "accepted"; "in_progress"; "completed"; "cancelled"]%string.

(** [PATCH /api/v1/jobs/{job_id}/status]; [new_status] is
    [data.get('status')].  The response repeats the status. *)
Definition update_job_status (id0 : Z) (new_status : option string)
    (t : Jobs) : http_result string * Jobs :=
  match new_status with
  | Some s =>
      if existsb (String.eqb s) job_statuses then
        (Respond s,
         update_jobs (fun j => job_id j =? id0) (fun j => with_status j s) t)
      else (HTTPException 400, t)
  | None => (HTTPException 400, t)
  end.

(** [PATCH /api/v1/terminal/jobs/{master_id}/status/{job_id}], the second
    function of the name [update_job_status] in main.py. *)
Definition terminal_update_job_status (master : Z) (id0 : Z) (s : string)
    (t : Jobs) : http_result string * Jobs :=
  let p :=
    fun j =>
      (job_id j =? id0)
      && match master_id j with
         | Some m => m =? master
         | None => false
         end in
  if (jobs_rowcount p t =? 0)%nat then (HTTPException 404, t)
  else (Respond s, update_jobs p (fun j => with_status j s) t).

(** The value of the key ['location'] in the body of [master_depart]: the key
    is missing; or the value is an object, with the numbers under its keys
    ['lat'] and ['lon'] ([None] for null and for a missing key); or the value
    is no object: null, a number, a string, a list. *)
Inductive location_field :=
| LocationMissing
| LocationObject (lat lon : option Q)
| LocationOther.

(** An exception of Python that the endpoint does not catch. *)
Inductive python_error := AttributeError.

(** How a call of an endpoint ends: with a response or an [HTTPException],
    or with an exception that escapes from it. *)
Inductive outcome (A : Type) :=
| Handled (r : http_result A)
| Escaped (e : python_error).

Arguments Handled {A} r.
Arguments Escaped {A} e.

(** [(location.get('lat'), location.get('lon'))] for
    [location = data.get('location', {})]: the default is the empty object,
    and a value that is no object has no method [get]. *)
Definition lat_lon (location : location_field)
    : option (option Q * option Q) :=
  match location with
  | LocationMissing => Some (None, None)
  | LocationObject lat lon => Some (lat, lon)
  | LocationOther => None
  end.

(** [POST /api/v1/master/depart/{job_id}]; [location] is the value of the key
    ['location'] of the body, [route] that of the key
    ['route_screenshot_url'] ([None] when the key is missing, [Some None] for
    null), [now] is [CURRENT_TIMESTAMP].  The arguments of the [UPDATE] are
    evaluated before it is executed, so an [AttributeError] of
    [location.get] leaves the table as it is.  The response repeats the route
    URL. *)
Definition master_depart (id0 : Z) (location : location_field)
    (route : option (option string)) (now : Z) (t : Jobs)
    : outcome (option string) * Jobs :=
  let route_url := default (Some ""%string) route in
  match lat_lon location with
  | None => (Escaped AttributeError, t)
  | Some (lat, lon) =>
      (Handled (Respond route_url),
       update_jobs (fun j => job_id j =? id0)
         (fun j =>
            mk_Job (job_id j) (client_name j) (client_phone j) (category j)
              (problem_description j) (address j) (estimated_price j)
              "on-the-way" (master_id j) (created_at j) (Some now)
              (master_arrived_at j) (client_phone_revealed j) lat lon
              route_url (google_calendar_event_id j) (google_task_id j)) t)
  end.


(** The response of [GET /api/v1/client/track/{job_id}]. *)
Record Tracking := mk_Tracking {
  track_status : string;
  departed : bool;
  arrived : bool;
  location : option (option Q * option Q);
  route_url : option string;
  track_estimated_price : option Q
}.

(** [bool(x)] for a REAL column: NULL and zero are false. *)
Definition truthy_real (x : option Q) : bool :=
  match x with
  | Some q => negb (Qeq_bool q 0)
  | None => false
  end.

Definition track_master (id0 : Z) (t : Jobs) : http_result Tracking :=
  match List.find (fun j => job_id j =? id0) (job_rows t) with
  | None => HTTPException 404
  | Some job =>
      Respond
        (mk_Tracking (status job)
           (bool_decide (is_Some (master_departed_at job)))
           (bool_decide (is_Some (master_arrived_at job)))
           (if truthy_real (master_location_lat job)
            then Some (master_location_lat job, master_location_lon job)
            else None)
           (route_screenshot_url job) (estimated_price job))
  end.

(** The body of a [ClientRequest]. *)
Record ClientRequest := mk_ClientRequest {
  req_name : string;
  req_phone : string;
  req_category : string;
  req_problem_description : string;
  req_address : string
}.

(** The response of [process_client_request]. *)
Record Intake := mk_Intake {
  intake_job_id : Z;
  intake_estimated_price : Q;
  master_assigned : bool;
  intake_master_id : option Z
}.

(** [if master_id] on the result of [find_available_master]: [None] and the
    id 0 are false. *)
Definition truthy_id (m : option Z) : bool :=
  match m with
  | Some i => negb (i =? 0)
  | None => false
  end.

(** The key of a row inserted with [AUTOINCREMENT]: one more than the
    largest id that is or ever was in the table. *)
Definition next_job_id (t : Jobs) : Z :=
  fold_right Z.max (job_seq t) (map job_id (job_rows t)) + 1.

Section Intake.

(** [calculate_pricing] works in floating point and through the module
    [price_calculator]; its result is a parameter. *)
Context (like : string -> string -> bool).
Context (calculate_pricing : string -> string -> Q).

(** [POST /api/v1/ai/web-form], without the calendar synchronisation, which
    touches no table; [now] is [CURRENT_TIMESTAMP]. *)
Definition process_client_request (request : ClientRequest) (now : Z)
    (db : DB) (t : Jobs) : Intake * Jobs :=
  let price :=
    calculate_pricing (req_category request) (req_problem_description request) in
  let master := find_available_master like db (req_category request) "Москва" in
  let new_id := next_job_id t in
  let row :=
    mk_Job new_id (req_name request) (req_phone request) (req_category request)
      (req_problem_description request) (req_address request) (Some price)
      (if truthy_id master then "accepted" else "pending") master now
      None None false None None None None None in
  (mk_Intake new_id price (truthy_id master)
     (if truthy_id master then master else None),
   mk_Jobs (job_rows t ++ [row]) new_id).

End Intake.

End Main.


Definition owned_by (master id0 : Z) (j : Main.Job) : bool :=
  (Main.job_id j =? id0)
  && match Main.master_id j with
     | Some m => m =? master
     | None => false
     end.

(** ** Example stores *)

Definition nine : time := mk_time 9 0 0 0.
Definition noon : time := mk_time 12 0 0 0.
Definition eighteen : time := mk_time 18 0 0 0.

(** The ordinal of 2024-01-01, a Monday. *)
Definition monday : Z := 738886.

(** A day open from 09:00 to 18:00 with the given jobs booked. *)
Definition open_day (d : Z) (jobs : list Z) : gmap string DaySchedule :=
  {[ strftime_ordinal d :=
       mk_DaySchedule d true (Some (mk_TimeSlot nine eighteen)) jobs ]}.

Definition electrician (i : Z) (terminal : bool) (r : option Q)
    (s : option (gmap string DaySchedule)) (stamp : option Z) : Master :=
  mk_Master i true terminal "Moscow" "electrical,plumbing" r s stamp.

(** Master 1: rating 5.0 and three jobs on Monday; master 2: rating 4.9 and
    a free Monday. *)
Definition db_demo : DB :=
  [ electrician 1 true (Some 5%Q) (Some (open_day monday [7; 8; 9])) (Some 0);
    electrician 2 true (Some (49 # 10)%Q) (Some (open_day monday [])) None ].

(** Master 1: rating 1.51 and a free Monday; master 2: rating 1.71 and two
    jobs on Monday. *)
Definition db_round : DB :=
  [ electrician 1 true (Some (151 # 100)%Q) (Some (open_day monday [])) None;
    electrician 2 true (Some (171 # 100)%Q) (Some (open_day monday [7; 8]))
      None ].

(** A master whose stored rating is 0.0 next to one rated 4.0. *)
Definition db_zero : DB :=
  [ electrician 1 true (Some 0%Q) (Some (open_day monday [])) None;
    electrician 2 true (Some 4%Q) (Some (open_day monday [])) None ].

(** An active master whose terminal is not active, the column default. *)
Definition db_terminal_off : DB :=
  [ electrician 1 false (Some 5%Q) None None ].

(** The Monday of master 1 in [db_demo]. *)
Definition monday_entry : DaySchedule :=
  mk_DaySchedule monday true (Some (mk_TimeSlot nine eighteen)) [7; 8; 9].


Definition job (i : Z) (s : string) (m : option Z) : Main.Job :=
  Main.mk_Job i "Anna" "+70000000000" "electrical" "the socket sparks"
    "Lenina 1" (Some 1500%Q) s m 0 None None false None None None None None.

(** Job 1 is pending, job 2 is accepted by master 1. *)
Definition jobs_demo : Main.Jobs :=
  Main.mk_Jobs [ job 1 "pending" None; job 2 "accepted" (Some 1) ] 2.

Definition request_demo : Main.ClientRequest :=
  Main.mk_ClientRequest "Anna" "+70000000000" "electrical" "the socket sparks"
    "Lenina 1".

Definition flat_pricing (category description : string) : Q := 1500%Q.

(** * Properties *)

(** ** Times *)

Lemma time_compare_refl (t : time) : time_compare t t = Eq.
Proof. unfold time_compare. by rewrite !Z.compare_refl. Qed.

Lemma time_leb_refl (t : time) : time_leb t t = true.
Proof. unfold time_leb. by rewrite time_compare_refl. Qed.

(** On well-formed times the tuple order is the order of the instants of
    the day. *)
Lemma time_leb_microseconds (a b : time) :
  time_valid a -> time_valid b ->
  time_leb a b = (microseconds_of_day a <=? microseconds_of_day b).
Proof.
  unfold time_valid, time_leb, time_compare, microseconds_of_day.
  intros (Ha1 & Ha2 & Ha3 & Ha4) (Hb1 & Hb2 & Hb3 & Hb4).
  destruct (Z.compare_spec (hour a) (hour b));
    [destruct (Z.compare_spec (minute a) (minute b));
       [destruct (Z.compare_spec (second a) (second b));
          [destruct (Z.compare_spec (microsecond a) (microsecond b))|..]|..]|..];
    symmetry; first [apply Z.leb_le | apply Z.leb_gt]; nia.
Qed.

(** ** The store *)

Section Store.

Lemma fetch_master_set (db : DB) (m : Z) (s : gmap string DaySchedule) :
  fetch_master (map (fun r => if id r =? m then with_schedule r s else r) db) m
  = (fun r => with_schedule r s) <$> fetch_master db m.
Proof.
  unfold fetch_master. induction db as [|r db IH]; [done|].
  simpl. destruct (id r =? m) eqn:E; simpl.
  - by rewrite E.
  - by rewrite E, IH.
Qed.

Lemma fetch_master_set_ne (db : DB) (m m' : Z) (s : gmap string DaySchedule) :
  m' <> m ->
  fetch_master (map (fun r => if id r =? m then with_schedule r s else r) db) m'
  = fetch_master db m'.
Proof.
  intros Hne. unfold fetch_master. induction db as [|r db IH]; [done|].
  simpl. destruct (id r =? m) eqn:E; simpl.
  - apply Z.eqb_eq in E. replace (id r =? m') with false; [done|].
    symmetry. apply Z.eqb_neq. congruence.
  - destruct (id r =? m'); [done|]. apply IH.
Qed.

Lemma get_master_schedule_set (db : DB) (m : Z) (s : gmap string DaySchedule) :
  has_master db m ->
  get_master_schedule (snd (set_master_schedule m s db)) m = s.
Proof.
  intros [r Hr]. unfold get_master_schedule, set_master_schedule, modify. simpl.
  by rewrite fetch_master_set, Hr.
Qed.

Lemma get_master_schedule_set_ne (db : DB) (m m' : Z)
    (s : gmap string DaySchedule) :
  m' <> m ->
  get_master_schedule (snd (set_master_schedule m s db)) m'
  = get_master_schedule db m'.
Proof.
  intros Hne. unfold get_master_schedule, set_master_schedule, modify. simpl.
  by rewrite fetch_master_set_ne.
Qed.

Lemma has_master_set (db : DB) (m m' : Z) (s : gmap string DaySchedule) :
  has_master db m' -> has_master (snd (set_master_schedule m s db)) m'.
Proof.
  intros [r Hr]. unfold has_master, set_master_schedule, modify. simpl.
  destruct (decide (m' = m)) as [->|Hne].
  - rewrite fetch_master_set, Hr. by eexists.
  - rewrite fetch_master_set_ne, Hr by done. by eexists.
Qed.

(** A schedule that is not empty belongs to a row of the table. *)
Lemma lookup_has_master (db : DB) (m : Z) (k : string) (e : DaySchedule) :
  get_master_schedule db m !! k = Some e -> has_master db m.
Proof.
  unfold get_master_schedule, has_master.
  destruct (fetch_master db m) as [r|]; [by eexists|].
  by rewrite lookup_empty.
Qed.

End Store.

(** ** Availability queries *)

Section Availability.

Context (strftime : Z -> string).

(** C5.  [is_master_available] is false when the record has no entry for the
    date.  On an entry, with a time [t] it is true exactly when the entry is
    available and carries a slot with [start <= t <= end] (both ends
    included: the slot's own start and end are inside an ordered slot);
    without a time it is the entry's [available] flag. *)
Theorem is_master_available_spec (db : DB) (master_id date : Z) :
  (get_master_schedule db master_id !! strftime date = None ->
   forall check_time,
     is_master_available strftime db master_id date check_time = false)
  /\ (forall entry,
        get_master_schedule db master_id !! strftime date = Some entry ->
        (forall t,
           is_master_available strftime db master_id date (Some t) = true <->
           available entry = true /\
           exists slot, time_slot entry = Some slot /\
             time_leb (slot_start slot) t = true /\
             time_leb t (slot_end slot) = true)
        /\ (forall slot,
              available entry = true -> time_slot entry = Some slot ->
              time_leb (slot_start slot) (slot_end slot) = true ->
              is_master_available strftime db master_id date
                (Some (slot_start slot)) = true
              /\ is_master_available strftime db master_id date
                   (Some (slot_end slot)) = true)
        /\ is_master_available strftime db master_id date None
           = available entry).
Proof.
  unfold is_master_available. split.
  - intros -> t. done.
  - intros entry ->. split; [|split].
    + intros t. unfold is_available_at, TimeSlot_contains.
      destruct (available entry); simpl.
      * destruct (time_slot entry) as [slot|].
        -- rewrite andb_true_iff. split.
           ++ intros [H1 H2]. split; [done|]. by exists slot.
           ++ intros [_ (slot' & Heq & H1 & H2)]. by simplify_eq.
        -- split; [done|]. by intros [_ (slot' & Heq & _)].
      * split; [done|]. by intros [? _].
    + intros slot Ha Hs Hle. unfold is_available_at, TimeSlot_contains.
      rewrite Ha, Hs. simpl. by rewrite !time_leb_refl, Hle.
    + done.
Qed.

End Availability.

(** ** Schedule confirmation *)

(** C9.  [needs_schedule_confirmation] is true when no confirmation stamp is
    stored; on a stored stamp it is true exactly when [now - last] is strictly
    more than twelve hours, so false at exactly twelve hours. *)
Theorem needs_schedule_confirmation_spec (db : DB) (master_id now : Z) :
  ((forall r, fetch_master db master_id = Some r ->
              last_schedule_confirmation r = None) ->
   needs_schedule_confirmation db master_id now = true)
  /\ (forall r last,
        fetch_master db master_id = Some r ->
        last_schedule_confirmation r = Some last ->
        (needs_schedule_confirmation db master_id now = true <->
         now - last > hours 12)
        /\ (now - last <= hours 12 ->
            needs_schedule_confirmation db master_id now = false)
        /\ (now - last = hours 12 ->
            needs_schedule_confirmation db master_id now = false)).
Proof.
  unfold needs_schedule_confirmation. split.
  - intros H. destruct (fetch_master db master_id) as [r|]; [|done].
    by rewrite (H r eq_refl).
  - intros r last -> ->. split; [|split].
    + rewrite Z.ltb_lt. lia.
    + intros H. apply Z.ltb_ge. lia.
    + intros H. apply Z.ltb_ge. lia.
Qed.

(** After [confirm_daily_schedule] at [now0] a master needs a new
    confirmation once more than twelve hours have passed. *)
Lemma confirm_daily_schedule_needs (db : DB) (master_id now0 now : Z) :
  has_master db master_id ->
  fst (confirm_daily_schedule master_id now0 db) = Return true
  /\ needs_schedule_confirmation
       (snd (confirm_daily_schedule master_id now0 db)) master_id now
     = (hours 12 <? now - now0).
Proof.
  intros [r Hr]. split; [done|].
  unfold needs_schedule_confirmation, confirm_daily_schedule, bind, modify.
  simpl. revert Hr. unfold fetch_master.
  induction db as [|r0 db IH]; [done|]. simpl.
  destruct (id r0 =? master_id) eqn:E; simpl; rewrite E; [done|]. apply IH.
Qed.

(** ** Booking *)

Section Booking.

Context (strftime : Z -> string).

(** C2.  [book_master_for_job] never raises.  Without an entry for the date it
    leaves the whole store unchanged and the workload of the date is 0 before
    and after.  With an entry it appends [job_id] at the tail of that entry's
    [booked_jobs], whatever the list already holds (the same job again, any
    number of jobs), and the workload of the date grows by exactly 1. *)
Theorem book_master_for_job_spec (db : DB) (master_id job_id d : Z) :
  let db' := snd (book_master_for_job strftime master_id job_id d db) in
  fst (book_master_for_job strftime master_id job_id d db) = Return tt
  /\ (get_master_schedule db master_id !! strftime d = None ->
      db' = db
      /\ get_master_workload strftime db master_id d = 0
      /\ get_master_workload strftime db' master_id d = 0)
  /\ (forall entry,
        get_master_schedule db master_id !! strftime d = Some entry ->
        get_master_schedule db' master_id !! strftime d
        = Some (mk_DaySchedule (date entry) (available entry)
                  (time_slot entry) (booked_jobs entry ++ [job_id]))
        /\ get_master_workload strftime db' master_id d
           = get_master_workload strftime db master_id d + 1).
Proof.
  unfold book_master_for_job, bind, gets. simpl.
  destruct (get_master_schedule db master_id !! strftime d) as [entry|] eqn:E.
  - split; [done|]. split; [done|]. intros ? [= <-].
    pose proof (lookup_has_master _ _ _ _ E) as Hm.
    unfold get_master_workload.
    rewrite get_master_schedule_set by done.
    rewrite lookup_insert_eq, E. split; [done|].
    simpl. rewrite length_app. simpl. lia.
  - split; [done|]. split; [|done]. intros _.
    unfold get_master_workload. simpl. by rewrite E.
Qed.

End Booking.

(** ** Setting one day *)

Section SetDay.

Context (strftime : Z -> string).
Context (fromisoformat : string -> option time).
Hypothesis strftime_inj : forall d d' : Z, strftime d = strftime d' -> d = d'.

Lemma update_day_schedule_eq (db : DB) (master_id d : Z) (a : bool)
    (st en : option string) :
  update_day_schedule strftime fromisoformat master_id d a st en db
  = match parsed_slot fromisoformat a st en with
    | Return slot =>
        set_master_schedule master_id
          (<[strftime d :=
               mk_DaySchedule d a slot
                 (kept_jobs (get_master_schedule db master_id !! strftime d))]>
             (get_master_schedule db master_id)) db
    | Raise e => (Raise e, db)
    end.
Proof.
  unfold update_day_schedule, parsed_slot, bind, gets, time_fromisoformat.
  replace (booked_jobs
             (default (mk_DaySchedule d false None [])
                (get_master_schedule db master_id !! strftime d)))
    with (kept_jobs (get_master_schedule db master_id !! strftime d))
    by (by destruct (get_master_schedule db master_id !! strftime d)).
  destruct (a && truthy st && truthy en); [|done].
  destruct (fromisoformat (str_of st)); [|done]. simpl.
  destruct (fromisoformat (str_of en)); done.
Qed.

Lemma parsed_slot_unavailable (st en : option string) :
  parsed_slot fromisoformat false st en = Return None.
Proof. done. Qed.

Lemma parsed_slot_missing (a : bool) (st en : option string) :
  truthy st = false \/ truthy en = false -> parsed_slot fromisoformat a st en = Return None.
Proof.
  unfold parsed_slot. intros [-> | ->]; [by rewrite andb_false_r|].
  by rewrite andb_false_r.
Qed.

Lemma parsed_slot_given (st en : option string) (s e : time) :
  truthy st = true -> truthy en = true ->
  fromisoformat (str_of st) = Some s -> fromisoformat (str_of en) = Some e ->
  parsed_slot fromisoformat true st en = Return (Some (mk_TimeSlot s e)).
Proof. intros Hs He Ps Pe. unfold parsed_slot. by rewrite Hs, He, Ps, Pe. Qed.

Lemma parsed_slot_inv (a : bool) (st en : option string) (slot : option TimeSlot) :
  parsed_slot fromisoformat a st en = Return slot -> a = false -> slot = None.
Proof. intros H ->. unfold parsed_slot in H. simpl in H. congruence. Qed.

(** C6.  [update_day_schedule] touches only the entry of its date: every
    other key, hence every other date, of the master's record and the records
    of the other masters read as before.  When it returns, the entry of the
    date holds the new flag and slot and the [booked_jobs] that were stored
    there, or the empty list when there was no entry; a second call with the
    same arguments changes nothing more, and after a second call with any
    arguments for that date the entry still holds those booked jobs. *)
Theorem update_day_schedule_frame (db : DB) (master_id d : Z) (a : bool)
    (st en : option string) :
  has_master db master_id ->
  let run := update_day_schedule strftime fromisoformat master_id d a st en in
  let old := get_master_schedule db master_id in
  let new := get_master_schedule (snd (run db)) master_id in
  (forall k, k <> strftime d -> new !! k = old !! k)
  /\ (forall d', d' <> d -> new !! strftime d' = old !! strftime d')
  /\ (forall m', m' <> master_id ->
        get_master_schedule (snd (run db)) m' = get_master_schedule db m')
  /\ (fst (run db) = Return tt ->
      (exists slot,
         parsed_slot fromisoformat a st en = Return slot /\
         new !! strftime d
         = Some (mk_DaySchedule d a slot
                   (match old !! strftime d with
                    | Some entry => booked_jobs entry
                    | None => []
                    end)))
      /\ snd (run (snd (run db))) = snd (run db)
      /\ (forall a' st' en' entry',
            get_master_schedule
              (snd (update_day_schedule strftime fromisoformat master_id d a'
                      st' en' (snd (run db)))) master_id !! strftime d
            = Some entry' ->
            booked_jobs entry'
            = match old !! strftime d with
              | Some entry => booked_jobs entry
              | None => []
              end)).
Proof.
  intros Hm run old new. subst run old new.
  assert (Hk : forall k, k <> strftime d ->
     get_master_schedule
       (snd (update_day_schedule strftime fromisoformat master_id d a st en db))
       master_id !! k = get_master_schedule db master_id !! k).
  { intros k Hk. rewrite update_day_schedule_eq.
    destruct (parsed_slot fromisoformat a st en) as [slot|e]; [|done].
    rewrite get_master_schedule_set by done. by rewrite lookup_insert_ne. }
  split; [exact Hk|]. split.
  { intros d' Hd. apply Hk. intros E. apply Hd. by apply strftime_inj. }
  split.
  { intros m' Hne. rewrite update_day_schedule_eq.
    destruct (parsed_slot fromisoformat a st en) as [slot|e]; [|done].
    by apply get_master_schedule_set_ne. }
  rewrite !update_day_schedule_eq.
  destruct (parsed_slot fromisoformat a st en) as [slot|e] eqn:Ep; [|done].
  intros _. split; [|split].
  - exists slot. split; [done|].
    rewrite get_master_schedule_set by done. by rewrite lookup_insert_eq.
  - rewrite !get_master_schedule_set by done.
    rewrite lookup_insert_eq. simpl. rewrite insert_insert_eq.
    unfold set_master_schedule, modify. simpl. rewrite map_map.
    apply map_ext. intros r. destruct (id r =? master_id) eqn:E; simpl.
    + by rewrite E.
    + by rewrite E.
  - intros a' st' en' entry'. rewrite update_day_schedule_eq.
    destruct (parsed_slot fromisoformat a' st' en') as [slot'|e'].
    + rewrite (get_master_schedule_set db) by done.
      rewrite get_master_schedule_set by (by apply has_master_set).
      rewrite !lookup_insert_eq. by intros [= <-].
    + cbn [snd]. rewrite get_master_schedule_set by done.
      rewrite lookup_insert_eq. by intros [= <-].
Qed.

(** C10.  With [available = true] and the start or the end time missing
    ([None] or the empty string) [update_day_schedule] raises nothing and
    stores an available entry without a time slot; afterwards
    [is_master_available] for that date is true without a time and false with
    any time. *)
Theorem update_day_schedule_available_without_slot (db : DB)
    (master_id d : Z) (st en : option string) :
  has_master db master_id ->
  truthy st = false \/ truthy en = false ->
  let old := get_master_schedule db master_id in
  let run := update_day_schedule strftime fromisoformat master_id d true st en in
  fst (run db) = Return tt
  /\ get_master_schedule (snd (run db)) master_id !! strftime d
     = Some (mk_DaySchedule d true None
               (match old !! strftime d with
                | Some entry => booked_jobs entry
                | None => []
                end))
  /\ is_master_available strftime (snd (run db)) master_id d None = true
  /\ (forall t,
        is_master_available strftime (snd (run db)) master_id d (Some t)
        = false).
Proof.
  intros Hm Hmiss old run. subst old run.
  rewrite update_day_schedule_eq, (parsed_slot_missing true st en Hmiss).
  unfold is_master_available.
  rewrite get_master_schedule_set by done. rewrite lookup_insert_eq.
  done.
Qed.

(** C4, as the code has it.  [update_day_schedule] has no slot validation: it
    raises exactly when [available] is true, both time strings are given and
    [time.fromisoformat] rejects one of them, and then the store is unchanged.
    With [available = true] and a time missing it returns and stores an
    available entry without slot; with two times that parse it returns and
    stores them as the slot, also when the start is after the end. *)
Theorem update_day_schedule_raises (db : DB) (master_id d : Z) (a : bool)
    (st en : option string) :
  let run := update_day_schedule strftime fromisoformat master_id d a st en in
  (fst (run db) = Raise ValueError <->
   a = true /\ truthy st = true /\ truthy en = true /\
   (fromisoformat (str_of st) = None \/ fromisoformat (str_of en) = None))
  /\ (fst (run db) = Raise ValueError -> snd (run db) = db)
  /\ (fst (run db) <> Raise ValueError -> fst (run db) = Return tt)
  /\ (a = true -> truthy st = false \/ truthy en = false ->
      fst (run db) = Return tt
      /\ (has_master db master_id ->
          exists jobs,
            get_master_schedule (snd (run db)) master_id !! strftime d
            = Some (mk_DaySchedule d true None jobs)))
  /\ (forall s e,
        a = true -> truthy st = true -> truthy en = true ->
        fromisoformat (str_of st) = Some s ->
        fromisoformat (str_of en) = Some e ->
        fst (run db) = Return tt
        /\ (has_master db master_id ->
            exists jobs,
              get_master_schedule (snd (run db)) master_id !! strftime d
              = Some (mk_DaySchedule d true (Some (mk_TimeSlot s e)) jobs))).
Proof.
  intros run. subst run. rewrite update_day_schedule_eq.
  split; [|split; [|split; [|split]]].
  - unfold parsed_slot.
    destruct a, (truthy st), (truthy en); simpl;
      try (split; [done | by intros (? & ? & ? & _)]).
    destruct (fromisoformat (str_of st)) as [s|].
    + destruct (fromisoformat (str_of en)) as [e|]; simpl.
      * split; [done|]. by intros (_ & _ & _ & [?|?]).
      * split; [|done]. intros _. repeat split; by right.
    + simpl. split; [|done]. intros _. repeat split; by left.
  - by destruct (parsed_slot fromisoformat a st en).
  - destruct (parsed_slot fromisoformat a st en) as [slot|[]]; [done|]. by intros [].
  - intros -> Hmiss. rewrite (parsed_slot_missing true st en Hmiss).
    split; [done|]. intros Hm. eexists.
    rewrite get_master_schedule_set by done. by rewrite lookup_insert_eq.
  - intros s e -> Hs He Ps Pe.
    rewrite (parsed_slot_given st en s e Hs He Ps Pe). split; [done|]. intros Hm. eexists.
    rewrite get_master_schedule_set by done. by rewrite lookup_insert_eq.
Qed.

End SetDay.

(** ** The weekly schedule *)

Lemma Zmem_In (x : Z) (l : list Z) : Zmem x l = true <-> In x l.
Proof.
  unfold Zmem. rewrite existsb_exists. split.
  - intros (y & Hy & E). apply Z.eqb_eq in E. by subst.
  - intros H. exists x. split; [done|]. apply Z.eqb_refl.
Qed.

Section Weekly.

Context (strftime : Z -> string).
Context (fromisoformat : string -> option time).
Hypothesis strftime_inj : forall d d' : Z, strftime d = strftime d' -> d = d'.

Lemma weekly_fold_cons (s e : time) (wd : list Z) (today j : Z)
    (range : list Z) (schedule : gmap string DaySchedule) :
  weekly_fold strftime s e wd today (j :: range) schedule
  = weekly_fold strftime s e wd today range
      (<[strftime (today + j) := weekly_entry s e wd (today + j)]> schedule).
Proof. done. Qed.

Lemma weekly_loop_parsed (ds de : string) (s e : time) (wd : list Z)
    (today : Z) (range : list Z) (schedule : gmap string DaySchedule) (db : DB) :
  fromisoformat ds = Some s -> fromisoformat de = Some e ->
  weekly_loop strftime fromisoformat ds de wd today range schedule db
  = (Return (weekly_fold strftime s e wd today range schedule), db).
Proof.
  intros Hs He. revert schedule.
  induction range as [|i range IH]; intros schedule; [done|].
  rewrite weekly_fold_cons. simpl. unfold bind, time_fromisoformat.
  rewrite Hs, He. unfold weekly_entry.
  destruct (Zmem (weekday (today + i)) wd) eqn:E; simpl; by rewrite IH.
Qed.

Lemma weekly_fold_other (s e : time) (wd : list Z) (today : Z)
    (range : list Z) (schedule : gmap string DaySchedule) (k : string) :
  (forall i, In i range -> k <> strftime (today + i)) ->
  weekly_fold strftime s e wd today range schedule !! k = schedule !! k.
Proof.
  revert schedule. induction range as [|j range IH]; intros schedule H; [done|].
  rewrite weekly_fold_cons.
  rewrite IH by (intros i Hi; apply H; by right).
  apply lookup_insert_ne. intros E. by apply (H j); [left|].
Qed.

Lemma weekly_fold_lookup (s e : time) (wd : list Z) (today : Z)
    (range : list Z) (schedule : gmap string DaySchedule) (i : Z) :
  List.NoDup range -> In i range ->
  weekly_fold strftime s e wd today range schedule !! strftime (today + i)
  = Some (weekly_entry s e wd (today + i)).
Proof.
  revert schedule. induction range as [|j range IH]; intros schedule Hnd Hi.
  - destruct Hi.
  - rewrite weekly_fold_cons.
    apply NoDup_cons_iff in Hnd as [Hj Hnd].
    destruct Hi as [->|Hi]; [|by apply IH].
    rewrite weekly_fold_other.
    + apply lookup_insert_eq.
    + intros i' Hi' E. apply strftime_inj in E.
      assert (i = i') by lia. by subst.
Qed.

Lemma weekly_fold_size (s e : time) (wd : list Z) (today : Z)
    (range : list Z) (schedule : gmap string DaySchedule) :
  List.NoDup range ->
  (forall i, In i range -> schedule !! strftime (today + i) = None) ->
  size (weekly_fold strftime s e wd today range schedule)
  = (length range + size schedule)%nat.
Proof.
  revert schedule. induction range as [|j range IH]; intros schedule Hnd H.
  - done.
  - rewrite weekly_fold_cons.
    apply NoDup_cons_iff in Hnd as [Hj Hnd].
    rewrite IH; [|done|].
    + rewrite map_size_insert_None by (apply H; by left). simpl. lia.
    + intros i Hi. rewrite lookup_insert_ne; [apply H; by right|].
      intros E. apply strftime_inj in E.
      assert (i = j) by lia. by subst.
Qed.

Lemma week_range_NoDup : List.NoDup [0; 1; 2; 3; 4; 5; 6].
Proof.
  repeat (constructor; [simpl; lia|]). constructor.
Qed.

Lemma week_range_In (i : Z) : In i [0; 1; 2; 3; 4; 5; 6] <-> 0 <= i < 7.
Proof. simpl. lia. Qed.

(** C3.  Whatever record was stored before, [create_weekly_schedule] leaves
    the master with exactly the seven entries of the dates [today], ...,
    [today + 6]: a day whose weekday is among the working days is available
    with the slot of the two default times, any other day is unavailable
    without slot, no job is booked, and every other key, in particular every
    date outside the seven days, has no entry. *)
Theorem create_weekly_schedule_spec (db : DB) (master_id : Z)
    (default_start default_end : string) (working_days : option (list Z))
    (today : Z) (s e : time) :
  has_master db master_id ->
  fromisoformat default_start = Some s ->
  fromisoformat default_end = Some e ->
  let wd := default [0; 1; 2; 3; 4] working_days in
  let run :=
    create_weekly_schedule strftime fromisoformat master_id default_start
      default_end working_days today in
  let new := get_master_schedule (snd (run db)) master_id in
  fst (run db) = Return tt
  /\ (forall i, 0 <= i < 7 ->
        (In (weekday (today + i)) wd ->
         new !! strftime (today + i)
         = Some (mk_DaySchedule (today + i) true (Some (mk_TimeSlot s e)) []))
        /\ (~ In (weekday (today + i)) wd ->
            new !! strftime (today + i)
            = Some (mk_DaySchedule (today + i) false None [])))
  /\ size new = 7%nat
  /\ (forall k, (forall i, 0 <= i < 7 -> k <> strftime (today + i)) ->
        new !! k = None)
  /\ (forall d, ~ (today <= d < today + 7) -> new !! strftime d = None).
Proof.
  intros Hm Hs He wd run new. subst run new.
  unfold create_weekly_schedule, bind.
  rewrite (weekly_loop_parsed _ _ s e) by done. fold wd.
  rewrite get_master_schedule_set by done.
  split; [done|]. split; [|split; [|split]].
  - intros i Hi.
    rewrite weekly_fold_lookup by (apply week_range_NoDup || by apply week_range_In).
    unfold weekly_entry. split.
    + intros Hw. apply Zmem_In in Hw. by rewrite Hw.
    + intros Hw. destruct (Zmem (weekday (today + i)) wd) eqn:E; [|done].
      apply Zmem_In in E. done.
  - rewrite weekly_fold_size; [by rewrite map_size_empty| apply week_range_NoDup |].
    intros i _. apply lookup_empty.
  - intros k Hk. rewrite weekly_fold_other; [apply lookup_empty|].
    intros i Hi. apply Hk. by apply week_range_In.
  - intros d Hd. rewrite weekly_fold_other; [apply lookup_empty|].
    intros i Hi E. apply week_range_In in Hi. apply strftime_inj in E. lia.
Qed.

End Weekly.

(** ** The DaySchedule invariant *)

Section Invariant.

Context (strftime : Z -> string).
Context (fromisoformat : string -> option time).

Lemma schedule_inv_empty : schedule_inv ∅.
Proof. intros k e H. by rewrite lookup_empty in H. Qed.

Lemma schedule_inv_insert (s : gmap string DaySchedule) (k : string)
    (e : DaySchedule) :
  schedule_inv s -> DaySchedule_inv e -> schedule_inv (<[k := e]> s).
Proof.
  intros Hs He k' e' H. destruct (decide (k = k')) as [->|Hne].
  - rewrite lookup_insert_eq in H. by simplify_eq.
  - rewrite lookup_insert_ne in H by done. by apply (Hs k').
Qed.

Lemma fetch_master_In (db : DB) (m : Z) (r : Master) :
  fetch_master db m = Some r -> In r db.
Proof. intros H. by apply find_some in H as [? _]. Qed.

Lemma db_inv_schedule (db : DB) (m : Z) :
  db_inv db -> schedule_inv (get_master_schedule db m).
Proof.
  intros H. unfold get_master_schedule.
  destruct (fetch_master db m) as [r|] eqn:E; [|apply schedule_inv_empty].
  apply H. by apply fetch_master_In in E.
Qed.

Lemma db_inv_set (db : DB) (m : Z) (s : gmap string DaySchedule) :
  db_inv db -> schedule_inv s -> db_inv (snd (set_master_schedule m s db)).
Proof.
  intros Hdb Hs r Hr. unfold set_master_schedule, modify in Hr. simpl in Hr.
  apply in_map_iff in Hr as (r0 & <- & Hr0).
  destruct (id r0 =? m); [done|]. by apply Hdb.
Qed.

Lemma weekly_loop_inv (ds de : string) (wd : list Z) (today : Z)
    (range : list Z) (schedule : gmap string DaySchedule) (db : DB) :
  schedule_inv schedule ->
  snd (weekly_loop strftime fromisoformat ds de wd today range schedule db) = db
  /\ forall schedule',
       fst (weekly_loop strftime fromisoformat ds de wd today range schedule db)
       = Return schedule' ->
       schedule_inv schedule'.
Proof.
  revert schedule. induction range as [|i range IH]; intros schedule Hs.
  - simpl. split; [done|]. by intros ? [= <-].
  - simpl. unfold bind, time_fromisoformat.
    destruct (Zmem (weekday (today + i)) wd).
    + destruct (fromisoformat ds) as [s|]; simpl; [|done].
      destruct (fromisoformat de) as [e|]; simpl; [|done].
      apply IH. by apply schedule_inv_insert.
    + simpl. apply IH. by apply schedule_inv_insert.
Qed.

Lemma run_inv (c : command) (db : DB) :
  db_inv db -> db_inv (snd (run strftime fromisoformat c db)).
Proof.
  intros Hdb. destruct c as [m d a st en | m ds de wd today | m j d]; simpl.
  - rewrite update_day_schedule_eq.
    destruct (parsed_slot fromisoformat a st en) as [slot|e] eqn:Ep; [|done].
    apply db_inv_set; [done|].
    apply schedule_inv_insert; [by apply db_inv_schedule|].
    intros Ha. simpl in *. by apply (parsed_slot_inv fromisoformat a st en).
  - unfold create_weekly_schedule, bind.
    pose proof (weekly_loop_inv ds de (default [0; 1; 2; 3; 4] wd) today
                  [0; 1; 2; 3; 4; 5; 6] ∅ db schedule_inv_empty) as [Hdb' Hs].
    destruct (weekly_loop _ _ _ _ _ _ _ _ db) as [[schedule|e] db'];
      simpl in *; subst db'; [|done].
    apply db_inv_set; [done|]. by apply Hs.
  - unfold book_master_for_job, bind, gets. simpl.
    destruct (get_master_schedule db m !! strftime d) as [day|] eqn:E; [|done].
    apply db_inv_set; [done|].
    apply schedule_inv_insert; [by apply db_inv_schedule|].
    apply (db_inv_schedule db m Hdb) in E. done.
Qed.

(** C7.  A store without any record satisfies the invariant, and every
    sequence of [update_day_schedule], [create_weekly_schedule] and
    [book_master_for_job] calls keeps it: no stored entry has a time slot
    while its [available] flag is false.  In particular, after
    [update_day_schedule] with [available = false] the entry of the date has
    no time slot, whatever was stored there and whatever times were passed,
    and [is_master_available] is false for that date. *)
Theorem DaySchedule_invariant (db : DB) :
  ((forall r, In r db -> schedule_json r = None) -> db_inv db)
  /\ (forall cs, db_inv db -> db_inv (run_all strftime fromisoformat cs db))
  /\ (forall master_id d st en,
        let db' :=
          snd (update_day_schedule strftime fromisoformat master_id d false
                 st en db) in
        (forall check_time,
           is_master_available strftime db' master_id d check_time = false)
        /\ (has_master db master_id ->
            get_master_schedule db' master_id !! strftime d
            = Some (mk_DaySchedule d false None
                      (match get_master_schedule db master_id !! strftime d with
                       | Some entry => booked_jobs entry
                       | None => []
                       end)))).
Proof.
  split; [|split].
  - intros H r Hr. rewrite (H r Hr). apply schedule_inv_empty.
  - intros cs. revert db. unfold run_all.
    induction cs as [|c cs IH]; intros db Hdb; [done|].
    simpl. apply IH. by apply run_inv.
  - intros m d st en db'. subst db'.
    rewrite update_day_schedule_eq, parsed_slot_unavailable.
    unfold is_master_available. split.
    + intros t. unfold get_master_schedule at 1.
      destruct (fetch_master _ m) as [r|] eqn:E.
      * assert (Hm : has_master db m).
        { unfold set_master_schedule, modify in E. simpl in E.
          rewrite fetch_master_set in E. unfold has_master.
          destruct (fetch_master db m); [by eexists|done]. }
        pose proof (get_master_schedule_set db m
          (<[strftime d :=
               mk_DaySchedule d false None
                 (kept_jobs (get_master_schedule db m !! strftime d))]>
             (get_master_schedule db m)) Hm) as H.
        unfold get_master_schedule at 1 in H. rewrite E in H. rewrite H.
        rewrite lookup_insert_eq. by destruct t.
      * by rewrite lookup_empty.
    + intros Hm. rewrite get_master_schedule_set by done.
      by rewrite lookup_insert_eq.
Qed.

End Invariant.

(** ** The head of a stable descending sort *)

Section SortHead.

Context {A K : Type} (key : A -> K) (ltb : K -> K -> bool).
Hypothesis ltb_trans :
  forall a b c, ltb a b = true -> ltb b c = true -> ltb a c = true.
Hypothesis ltb_negtrans :
  forall a b c, ltb a b = false -> ltb b c = false -> ltb a c = false.

Lemma insert_desc_head (x : A) (l : list A) :
  head (insert_desc key ltb x l)
  = match head l with
    | None => Some x
    | Some y => if ltb (key x) (key y) then Some y else Some x
    end.
Proof. destruct l as [|y l]; [done|]. simpl. by destruct (ltb (key x) (key y)). Qed.

Lemma sort_desc_nil_inv (l : list A) : sort_desc key ltb l = [] -> l = [].
Proof.
  destruct l as [|x l]; [done|]. simpl. intros H.
  pose proof (insert_desc_head x (sort_desc key ltb l)) as Hh.
  rewrite H in Hh. simpl in Hh.
  destruct (head (sort_desc key ltb l)) as [y|]; [|done].
  by destruct (ltb (key x) (key y)).
Qed.

(** The head of the sorted list is the first element of the input whose key
    is maximal: strictly above everything before it, not below anything after
    it. *)
Lemma sort_desc_head (l : list A) (m : A) :
  head (sort_desc key ltb l) = Some m ->
  exists l1 l2,
    l = l1 ++ m :: l2
    /\ (forall x, In x l1 -> ltb (key x) (key m) = true)
    /\ (forall x, In x l2 -> ltb (key m) (key x) = false).
Proof.
  revert m. induction l as [|x l IH]; intros m; [done|].
  simpl. rewrite insert_desc_head.
  destruct (head (sort_desc key ltb l)) as [y|] eqn:Ey.
  - destruct (IH y eq_refl) as (l1 & l2 & -> & H1 & H2).
    destruct (ltb (key x) (key y)) eqn:Exy; intros [= <-].
    + exists (x :: l1), l2. split; [done|]. split; [|done].
      intros z [<-|Hz]; [done|]. by apply H1.
    + exists [], (l1 ++ y :: l2). split; [done|]. split; [done|].
      intros z Hz. apply in_app_or in Hz as [Hz|[<-|Hz]].
      * destruct (ltb (key x) (key z)) eqn:Exz; [|done].
        rewrite (ltb_trans _ _ _ Exz (H1 z Hz)) in Exy. done.
      * done.
      * by apply (ltb_negtrans _ (key y)); [|apply H2].
  - intros [= <-]. exists [], l. split; [done|]. split; [done|].
    destruct (sort_desc key ltb l) eqn:El; [|done].
    apply sort_desc_nil_inv in El. by subst.
Qed.

(** [sort_desc] rearranges its input and leaves it in descending order. *)
Lemma insert_desc_Permutation (x : A) (l : list A) :
  Permutation (insert_desc key ltb x l) (x :: l).
Proof.
  induction l as [|y l IH]; [done|]. simpl.
  destruct (ltb (key x) (key y)); [|done].
  rewrite IH. apply perm_swap.
Qed.

Lemma sort_desc_Permutation (l : list A) : Permutation (sort_desc key ltb l) l.
Proof.
  induction l as [|x l IH]; [done|]. simpl.
  rewrite insert_desc_Permutation. by apply perm_skip.
Qed.

Lemma sort_desc_StronglySorted (l : list A) :
  (forall a b, ltb a b = true -> ltb b a = false) ->
  StronglySorted (fun a b => ltb (key a) (key b) = false) (sort_desc key ltb l).
Proof.
  intros ltb_asym. induction l as [|x l IH]; [constructor|]. simpl.
  induction IH as [|y s Hs IHs Hall]; simpl; [repeat constructor|].
  destruct (ltb (key x) (key y)) eqn:E.
  - constructor; [done|].
    rewrite List.Forall_forall. intros z Hz.
    apply (Permutation_in _ (insert_desc_Permutation x s)) in Hz as [<-|Hz].
    + by apply ltb_asym.
    + rewrite List.Forall_forall in Hall. by apply Hall.
  - constructor; [by constructor|].
    constructor; [done|].
    rewrite List.Forall_forall in *. intros z Hz.
    by apply (ltb_negtrans _ (key y)); [|apply Hall].
Qed.

End SortHead.

(** The same for an order that is a strict weak order only on part of the
    keys, as [<] on binary64 numbers is on those that are not NaN. *)
Section SortHeadOn.

Context {A K : Type} (key : A -> K) (ltb : K -> K -> bool) (P : K -> Prop).
Hypothesis ltb_trans :
  forall a b c, ltb a b = true -> ltb b c = true -> ltb a c = true.
Hypothesis ltb_negtrans :
  forall a b c, P b -> ltb a b = false -> ltb b c = false -> ltb a c = false.

Lemma sort_desc_head_on (l : list A) (m : A) :
  (forall x, In x l -> P (key x)) ->
  head (sort_desc key ltb l) = Some m ->
  exists l1 l2,
    l = l1 ++ m :: l2
    /\ (forall x, In x l1 -> ltb (key x) (key m) = true)
    /\ (forall x, In x l2 -> ltb (key m) (key x) = false).
Proof.
  revert m. induction l as [|x l IH]; intros m HP; [done|].
  simpl. rewrite insert_desc_head.
  assert (HPl : forall z, In z l -> P (key z)) by (intros z Hz; apply HP; by right).
  destruct (head (sort_desc key ltb l)) as [y|] eqn:Ey.
  - destruct (IH y HPl eq_refl) as (l1 & l2 & -> & H1 & H2).
    destruct (ltb (key x) (key y)) eqn:Exy; intros [= <-].
    + exists (x :: l1), l2. split; [done|]. split; [|done].
      intros z [<-|Hz]; [done|]. by apply H1.
    + exists [], (l1 ++ y :: l2). split; [done|]. split; [done|].
      intros z Hz. apply in_app_or in Hz as [Hz|[<-|Hz]].
      * destruct (ltb (key x) (key z)) eqn:Exz; [|done].
        rewrite (ltb_trans _ _ _ Exz (H1 z Hz)) in Exy. done.
      * done.
      * apply (ltb_negtrans _ (key y)); [|done|by apply H2].
        apply HPl, in_or_app. right. by left.
  - intros [= <-]. exists [], l. split; [done|]. split; [done|].
    destruct (sort_desc key ltb l) eqn:El; [|done].
    apply sort_desc_nil_inv in El. by subst.
Qed.

End SortHeadOn.

(** ** The order of binary64 numbers *)

Lemma SFltb_rank (a b : spec_float) :
  a <> S754_nan -> b <> S754_nan ->
  (SFltb a b = true <-> rank_lt (float_rank a) (float_rank b)).
Proof.
  intros Ha Hb. unfold SFltb, SFcompare.
  destruct a as [sa|sa| |sa ma ea], b as [sb|sb| |sb mb eb];
    try congruence; try destruct sa; try destruct sb; simpl;
    try (split; [discriminate|lia]); try (split; [lia|reflexivity]).
  all: change (Pcompare ?x ?y Eq) with (Pos.compare x y).
  all: destruct (Z.compare_spec ea eb); try destruct (Pos.compare_spec ma mb);
    simpl; split; try discriminate; try reflexivity; try lia.
Qed.

Lemma SFltb_nan_l (b : spec_float) : SFltb S754_nan b = false.
Proof. reflexivity. Qed.

Lemma SFltb_nan_r (a : spec_float) : SFltb a S754_nan = false.
Proof. by destruct a. Qed.

Lemma float_nan_dec (a : spec_float) : {a = S754_nan} + {a <> S754_nan}.
Proof. destruct a; [by right|by right|by left|by right]. Qed.

Lemma SFltb_trans (a b c : spec_float) :
  SFltb a b = true -> SFltb b c = true -> SFltb a c = true.
Proof.
  destruct (float_nan_dec a) as [->|Ha]; [by rewrite SFltb_nan_l|].
  destruct (float_nan_dec b) as [->|Hb]; [by rewrite SFltb_nan_r|].
  destruct (float_nan_dec c) as [->|Hc]; [by rewrite SFltb_nan_r|].
  rewrite !SFltb_rank by done.
  destruct (float_rank a) as [[? ?] ?], (float_rank b) as [[? ?] ?],
    (float_rank c) as [[? ?] ?]. unfold rank_lt. lia.
Qed.

Lemma SFltb_negtrans (a b c : spec_float) :
  b <> S754_nan ->
  SFltb a b = false -> SFltb b c = false -> SFltb a c = false.
Proof.
  intros Hb.
  destruct (float_nan_dec a) as [->|Ha]; [intros _ _; apply SFltb_nan_l|].
  destruct (float_nan_dec c) as [->|Hc]; [intros _ _; apply SFltb_nan_r|].
  rewrite <- !not_true_iff_false, !SFltb_rank by done.
  destruct (float_rank a) as [[? ?] ?], (float_rank b) as [[? ?] ?],
    (float_rank c) as [[? ?] ?]. unfold rank_lt. lia.
Qed.

Lemma StronglySorted_sublist_lt (l1 l2 : list Z) :
  sublist l1 l2 -> StronglySorted Z.lt l2 -> StronglySorted Z.lt l1.
Proof.
  induction 1 as [|x l1 l2 Hs IH|x l1 l2 Hs IH]; intros H2.
  - constructor.
  - apply StronglySorted_inv in H2 as [H2 Hx]. constructor; [by apply IH|].
    rewrite List.Forall_forall in *. intros y Hy. apply Hx.
    apply list_elem_of_In. apply (elem_of_sublist l1); [|done].
    by apply list_elem_of_In.
  - apply StronglySorted_inv in H2 as [H2 _]. by apply IH.
Qed.

Lemma StronglySorted_app_after (l1 l2 : list Z) (m : Z) :
  StronglySorted Z.lt (l1 ++ m :: l2) -> forall x, In x l2 -> m < x.
Proof.
  induction l1 as [|y l1 IH]; simpl; intros H.
  - apply StronglySorted_inv in H as [_ H].
    rewrite List.Forall_forall in H. done.
  - apply StronglySorted_inv in H as [H _]. by apply IH.
Qed.

Lemma sort_desc_map {A B K : Type} (key : A -> K) (key' : B -> K)
    (ltb : K -> K -> bool) (g : A -> B) (l : list A) :
  (forall x, key' (g x) = key x) ->
  sort_desc key' ltb (map g l) = map g (sort_desc key ltb l).
Proof.
  intros Hk. induction l as [|x l IH]; [done|].
  simpl. rewrite IH. generalize (sort_desc key ltb l). intros s.
  induction s as [|y s IHs]; [done|].
  simpl. rewrite !Hk. destruct (ltb (key x) (key y)); [|done].
  simpl. by rewrite IHs.
Qed.

(** ** Order facts on scores and ratings *)

Lemma Qltb_lt (a b : Q) : Qltb a b = true <-> (a < b)%Q.
Proof.
  unfold Qltb. rewrite negb_true_iff. split.
  - intros H. apply Qnot_le_lt. intros Hle. apply Qle_bool_iff in Hle. congruence.
  - intros H. destruct (Qle_bool b a) eqn:E; [|done].
    apply Qle_bool_iff in E. apply Qlt_not_le in H. done.
Qed.

Lemma Qltb_ge (a b : Q) : Qltb a b = false <-> (b <= a)%Q.
Proof. unfold Qltb. rewrite negb_false_iff. apply Qle_bool_iff. Qed.

Lemma Qltb_trans (a b c : Q) :
  Qltb a b = true -> Qltb b c = true -> Qltb a c = true.
Proof. rewrite !Qltb_lt. apply Qlt_trans. Qed.

Lemma Qltb_negtrans (a b c : Q) :
  Qltb a b = false -> Qltb b c = false -> Qltb a c = false.
Proof. rewrite !Qltb_ge. intros H1 H2. by apply (Qle_trans _ b). Qed.

Lemma rating_ltb_trans (a b c : option Q) :
  rating_ltb a b = true -> rating_ltb b c = true -> rating_ltb a c = true.
Proof.
  destruct a as [a|], b as [b|], c as [c|]; simpl; try done.
  apply Qltb_trans.
Qed.

Lemma rating_ltb_negtrans (a b c : option Q) :
  rating_ltb a b = false -> rating_ltb b c = false -> rating_ltb a c = false.
Proof.
  destruct a as [a|], b as [b|], c as [c|]; simpl; try done.
  apply Qltb_negtrans.
Qed.

(** ** The rating-only lookup of the job-intake flow *)

Section Intake.

Context (like : string -> string -> bool).

Lemma eligible_with_schedule_json (category city0 : string) (r : Master)
    (s : option (gmap string DaySchedule)) :
  eligible like category city0 (with_schedule_json r s)
  = eligible like category city0 r.
Proof. done. Qed.

(** C8, as the code has it.  [find_available_master] takes no date and reads
    no schedule: replacing the stored schedules by any others does not change
    its result.  It returns [None] exactly when no row is active, has an
    active terminal, is in the city and matches the category; otherwise it
    returns the id of such a row whose rating is not below the rating of any
    other such row (a row without rating ranking lowest). *)
Theorem find_available_master_spec (db : DB) (category city0 : string) :
  (forall f : Master -> option (gmap string DaySchedule),
     find_available_master like
       (map (fun r => with_schedule_json r (f r)) db) category city0
     = find_available_master like db category city0)
  /\ (find_available_master like db category city0 = None <->
      forall r, In r db ->
        ~ (is_active r = true /\ terminal_active r = true /\ city r = city0
           /\ like (specializations r) category = true))
  /\ (forall m,
        find_available_master like db category city0 = Some m ->
        exists r,
          In r db /\ id r = m
          /\ is_active r = true /\ terminal_active r = true /\ city r = city0
          /\ like (specializations r) category = true
          /\ forall r',
               In r' db -> is_active r' = true -> terminal_active r' = true ->
               city r' = city0 -> like (specializations r') category = true ->
               forall q', rating r' = Some q' ->
                 exists q, rating r = Some q /\ (q' <= q)%Q).
Proof.
  assert (Hel : forall r, eligible like category city0 r = true <->
            is_active r = true /\ terminal_active r = true /\ city r = city0
            /\ like (specializations r) category = true).
  { intros r. unfold eligible. rewrite !andb_true_iff, String.eqb_eq. tauto. }
  unfold find_available_master. fold (eligible like category city0).
  split; [|split].
  - intros f.
    replace (List.filter (eligible like category city0)
               (map (fun r => with_schedule_json r (f r)) db))
      with (map (fun r => with_schedule_json r (f r))
              (List.filter (eligible like category city0) db)).
    + rewrite (sort_desc_map rating rating rating_ltb) by done.
      by destruct (sort_desc rating rating_ltb
                     (List.filter (eligible like category city0) db)).
    + induction db as [|r db IH]; [done|]. simpl.
      rewrite eligible_with_schedule_json.
      destruct (eligible like category city0 r); simpl; by rewrite IH.
  - destruct (sort_desc rating rating_ltb
                (List.filter (eligible like category city0) db)) as [|r0 rs] eqn:Es.
    + apply sort_desc_nil_inv in Es. split; [|done]. intros _ r Hr Hc.
      apply Hel in Hc.
      assert (In r (List.filter (eligible like category city0) db))
        by (apply filter_In; done).
      rewrite Es in *. done.
    + split; [done|]. intros H. exfalso.
      destruct (sort_desc_head rating rating_ltb rating_ltb_trans
                  rating_ltb_negtrans _ r0 (f_equal head Es))
        as (l1 & l2 & El & _).
      assert (Hin : In r0 (List.filter (eligible like category city0) db))
        by (rewrite El; apply in_or_app; right; by left).
      apply filter_In in Hin as [Hin He]. apply (H r0 Hin). by apply Hel.
  - intros m.
    destruct (sort_desc rating rating_ltb
                (List.filter (eligible like category city0) db)) as [|r0 rs] eqn:Es;
      [done|].
    intros [= <-].
    destruct (sort_desc_head rating rating_ltb rating_ltb_trans
                rating_ltb_negtrans _ r0 (f_equal head Es))
      as (l1 & l2 & El & H1 & H2).
    assert (Hin : In r0 (List.filter (eligible like category city0) db))
      by (rewrite El; apply in_or_app; right; by left).
    apply filter_In in Hin as [Hin He]. apply Hel in He as (Ha & Ht & Hc & Hl).
    exists r0. repeat (split; [done|]).
    intros r' Hr' Ha' Ht' Hc' Hl' q' Hq'.
    assert (Hin' : In r' (List.filter (eligible like category city0) db))
      by (apply filter_In; split; [done|]; by apply Hel).
    rewrite El in Hin'.
    assert (Hle : rating_ltb (rating r0) (rating r') = false).
    { apply in_app_or in Hin' as [Hx|[<-|Hx]].
      - apply H1 in Hx. destruct (rating_ltb (rating r0) (rating r')) eqn:E; [|done].
        pose proof (rating_ltb_trans _ _ _ Hx E) as Hxx.
        rewrite Hq' in Hxx. simpl in Hxx. apply Qltb_lt in Hxx.
        by apply Qlt_irrefl in Hxx.
      - rewrite Hq'. simpl. apply Qltb_ge. apply Qle_refl.
      - by apply H2. }
    rewrite Hq' in Hle. destruct (rating r0) as [q|]; [|done].
    exists q. split; [done|]. simpl in Hle. by apply Qltb_ge.
Qed.

End Intake.

(** ** The schedule-aware selection *)

Section Matching.

Context (strftime : Z -> string).
Context (like : string -> string -> bool).

(** Every candidate is a row of the table, so the rating query of the
    scoring loop finds its row. *)
Lemma get_available_masters_has_master (db : DB)
    (specialization city0 : string) (d : Z) (check_time : option time)
    (x : Z) :
  In x (get_available_masters strftime like db specialization city0 d check_time) ->
  has_master db x.
Proof.
  unfold get_available_masters. intros [Hx _]%filter_In.
  apply in_map_iff in Hx as (r & <- & [Hr _]%filter_In).
  unfold has_master, fetch_master.
  destruct (List.find (fun r0 => id r0 =? id r) db) as [r'|] eqn:E; [by eexists|].
  pose proof (find_none _ _ E r Hr) as H. simpl in H.
  by rewrite Z.eqb_refl in H.
Qed.

Lemma find_best_available_master_eq (db : DB) (specialization city0 : string)
    (d : Z) (check_time : option time) :
  find_best_available_master strftime like db specialization city0 d check_time
  = fst <$>
      head (sort_desc snd SFltb
              (map (fun master_id => (master_id, score strftime db d master_id))
                 (get_available_masters strftime like db specialization city0 d
                    check_time))).
Proof.
  unfold find_best_available_master.
  destruct (get_available_masters _ _ _ _ _ _ _) as [|x l]; [done|].
  by destruct (sort_desc _ _ _).
Qed.

(** The sort only rearranges the candidates: the master returned is one of
    them, and there is one unless the list is empty. *)
Lemma find_best_available_master_In (db : DB) (specialization city0 : string)
    (d : Z) (check_time : option time) (m : Z) :
  find_best_available_master strftime like db specialization city0 d check_time
  = Some m ->
  In m (get_available_masters strftime like db specialization city0 d
          check_time).
Proof.
  rewrite find_best_available_master_eq.
  destruct (sort_desc snd SFltb _) as [|[m' sc] rest] eqn:Es; [done|].
  simpl. intros [= <-].
  assert (Hin : In (m', sc)
                  (map (fun master_id =>
                          (master_id, score strftime db d master_id))
                     (get_available_masters strftime like db specialization
                        city0 d check_time))).
  { apply (Permutation_in _ (sort_desc_Permutation snd SFltb _)).
    rewrite Es. by left. }
  apply in_map_iff in Hin as (x & [= <- _] & Hx). done.
Qed.

Lemma find_best_available_master_None (db : DB)
    (specialization city0 : string) (d : Z) (check_time : option time) :
  find_best_available_master strftime like db specialization city0 d check_time
  = None <->
  get_available_masters strftime like db specialization city0 d check_time = [].
Proof.
  rewrite find_best_available_master_eq. split.
  - destruct (sort_desc snd SFltb _) as [|p rest] eqn:Es; [|done].
    intros _. apply sort_desc_nil_inv in Es. by apply map_eq_nil in Es.
  - by intros ->.
Qed.

End Matching.

(** * Further properties of the schedule store *)

(** ** Writing and reading a record *)

Lemma update_rows_absent (db : DB) (m : Z) (f : Master -> Master) :
  ~ has_master db m ->
  map (fun r => if id r =? m then f r else r) db = db.
Proof.
  intros Hm. rewrite <- (map_id db) at 2. apply map_ext_in. intros r Hr.
  destruct (id r =? m) eqn:E; [|done]. exfalso. apply Hm.
  unfold has_master, fetch_master.
  destruct (List.find (fun r0 => id r0 =? m) db) as [r'|] eqn:Ef; [by eexists|].
  pose proof (find_none _ _ Ef r Hr) as H. simpl in H. congruence.
Qed.

Lemma update_rows_ids (db : DB) (m : Z) (f : Master -> Master) :
  (forall r, id (f r) = id r) ->
  map id (map (fun r => if id r =? m then f r else r) db) = map id db.
Proof.
  intros Hf. rewrite map_map. apply map_ext. intros r.
  by destruct (id r =? m).
Qed.

Lemma fetch_rating_set (db : DB) (m m' : Z) (s : gmap string DaySchedule) :
  fetch_rating (snd (set_master_schedule m s db)) m' = fetch_rating db m'.
Proof.
  unfold fetch_rating, set_master_schedule, modify. simpl.
  destruct (decide (m' = m)) as [->|Hne].
  - rewrite fetch_master_set. by destruct (fetch_master db m).
  - by rewrite fetch_master_set_ne.
Qed.

Lemma needs_schedule_confirmation_set (db : DB) (m m' now : Z)
    (s : gmap string DaySchedule) :
  needs_schedule_confirmation (snd (set_master_schedule m s db)) m' now
  = needs_schedule_confirmation db m' now.
Proof.
  unfold needs_schedule_confirmation, set_master_schedule, modify. simpl.
  destruct (decide (m' = m)) as [->|Hne].
  - rewrite fetch_master_set. by destruct (fetch_master db m).
  - by rewrite fetch_master_set_ne.
Qed.

(** X1.  [set_master_schedule] followed by [get_master_schedule] gives back
    the schedule that was written when the master has a row, and writes
    nothing at all when it has none.  The write replaces the whole record of
    that master only: the records of the other masters, the ratings, the
    confirmation stamps and the list of ids are as before. *)
Theorem set_master_schedule_get (db : DB) (m : Z)
    (s : gmap string DaySchedule) :
  let db' := snd (set_master_schedule m s db) in
  (has_master db m -> get_master_schedule db' m = s)
  /\ (~ has_master db m -> db' = db)
  /\ (forall m', m' <> m ->
        get_master_schedule db' m' = get_master_schedule db m')
  /\ (forall m', fetch_rating db' m' = fetch_rating db m')
  /\ (forall m' now,
        needs_schedule_confirmation db' m' now
        = needs_schedule_confirmation db m' now)
  /\ map id db' = map id db.
Proof.
  intros db'. subst db'. split; [|split; [|split; [|split; [|split]]]].
  - apply get_master_schedule_set.
  - intros Hm. unfold set_master_schedule, modify. simpl.
    by apply update_rows_absent.
  - intros m' Hne. by apply get_master_schedule_set_ne.
  - intros m'. apply fetch_rating_set.
  - intros m' now. apply needs_schedule_confirmation_set.
  - unfold set_master_schedule, modify. simpl. by apply update_rows_ids.
Qed.

(** ** A master without a row *)

Section UnknownMaster.

Context (strftime : Z -> string).
Context (fromisoformat : string -> option time).

Lemma get_master_schedule_absent (db : DB) (m : Z) :
  ~ has_master db m -> get_master_schedule db m = ∅.
Proof.
  intros Hm. unfold get_master_schedule.
  destruct (fetch_master db m) as [r|] eqn:E; [|done].
  exfalso. apply Hm. by exists r.
Qed.

Lemma run_absent (db : DB) (c : command) (m : Z) :
  ~ has_master db m ->
  match c with
  | SetDay m' _ _ _ _ | CreateWeekly m' _ _ _ _ | Book m' _ _ => m' = m
  end ->
  snd (run strftime fromisoformat c db) = db.
Proof.
  intros Hm Hc.
  destruct c as [m' d a st en | m' ds de wd today | m' j d]; subst m'; simpl.
  - rewrite update_day_schedule_eq.
    destruct (parsed_slot fromisoformat a st en); [|done].
    unfold set_master_schedule, modify. simpl. by apply update_rows_absent.
  - unfold create_weekly_schedule, bind.
    pose proof (weekly_loop_inv strftime fromisoformat ds de
                  (default [0; 1; 2; 3; 4] wd) today [0; 1; 2; 3; 4; 5; 6] ∅ db
                  schedule_inv_empty) as [Hdb _].
    destruct (weekly_loop _ _ _ _ _ _ _ _ db) as [[schedule|e] db0];
      simpl in *; subst db0; [|done].
    by apply update_rows_absent.
  - unfold book_master_for_job, bind, gets. simpl.
    rewrite get_master_schedule_absent by done. by rewrite lookup_empty.
Qed.

(** X2.  For an id that has no row in the masters table every mutating call
    is a silent no-op: [update_day_schedule], [create_weekly_schedule],
    [book_master_for_job] and [confirm_daily_schedule] leave the store
    unchanged whatever their arguments (the confirmation still answers
    [True]), and the queries answer as for an empty record: never available,
    workload 0, confirmation needed. *)
Theorem unknown_master_noop (db : DB) (m : Z) :
  ~ has_master db m ->
  (forall d a st en,
     snd (update_day_schedule strftime fromisoformat m d a st en db) = db)
  /\ (forall ds de wd today,
        snd (create_weekly_schedule strftime fromisoformat m ds de wd today db)
        = db)
  /\ (forall j d,
        book_master_for_job strftime m j d db = (Return tt, db))
  /\ (forall now, confirm_daily_schedule m now db = (Return true, db))
  /\ (forall d t, is_master_available strftime db m d t = false)
  /\ (forall d, get_master_workload strftime db m d = 0)
  /\ (forall now, needs_schedule_confirmation db m now = true).
Proof.
  intros Hm. split; [|split; [|split; [|split; [|split; [|split]]]]].
  - intros d a st en. by apply (run_absent db (SetDay m d a st en) m).
  - intros ds de wd today.
    by apply (run_absent db (CreateWeekly m ds de wd today) m).
  - intros j d. unfold book_master_for_job, bind, gets. simpl.
    rewrite get_master_schedule_absent by done. by rewrite lookup_empty.
  - intros now. unfold confirm_daily_schedule, bind, modify, ret. simpl.
    by rewrite update_rows_absent.
  - intros d t. unfold is_master_available.
    rewrite get_master_schedule_absent by done. by rewrite lookup_empty.
  - intros d. unfold get_master_workload.
    rewrite get_master_schedule_absent by done. by rewrite lookup_empty.
  - intros now. unfold needs_schedule_confirmation.
    destruct (fetch_master db m) as [r|] eqn:E; [|done].
    exfalso. apply Hm. by exists r.
Qed.

End UnknownMaster.

(** ** Candidates and the selected master *)

Lemma List_filter_sublist {A : Type} (f : A -> bool) (l : list A) :
  sublist (List.filter f l) l.
Proof.
  induction l as [|x l IH]; [constructor|]. simpl.
  destruct (f x); by constructor.
Qed.

Section Candidates.

Context (strftime : Z -> string).
Context (like : string -> string -> bool).

Lemma get_available_masters_In (db : DB) (specialization city0 : string)
    (d : Z) (check_time : option time) (x : Z) :
  In x (get_available_masters strftime like db specialization city0 d
          check_time) <->
  (exists r,
     In r db /\ id r = x /\ is_active r = true /\ city r = city0
     /\ like (specializations r) specialization = true)
  /\ is_master_available strftime db x d check_time = true.
Proof.
  unfold get_available_masters. rewrite filter_In, in_map_iff. split.
  - intros [(r & Hid & Hr) Ha]. apply filter_In in Hr as [Hr Hc].
    rewrite !andb_true_iff, String.eqb_eq in Hc. split; [|done].
    exists r. tauto.
  - intros [(r & Hr & Hid & Hact & Hc & Hl) Ha]. split; [|done].
    exists r. split; [done|]. apply filter_In. split; [done|].
    rewrite !andb_true_iff, String.eqb_eq. tauto.
Qed.

(** X3.  [get_available_masters] returns exactly the ids of the rows that
    are active, in the city and matching the specialization, and whose master
    [is_master_available] on the date (at the time, when one is given); the
    ids come in the order of the table, none added. *)
Theorem get_available_masters_spec (db : DB) (specialization city0 : string)
    (d : Z) (check_time : option time) :
  (forall x,
     In x (get_available_masters strftime like db specialization city0 d
             check_time) <->
     (exists r,
        In r db /\ id r = x /\ is_active r = true /\ city r = city0
        /\ like (specializations r) specialization = true)
     /\ is_master_available strftime db x d check_time = true)
  /\ sublist
       (get_available_masters strftime like db specialization city0 d
          check_time)
       (map id db).
Proof.
  split.
  - intros x. apply get_available_masters_In.
  - unfold get_available_masters. etrans; [apply List_filter_sublist|].
    apply (fmap_sublist id). apply List_filter_sublist.
Qed.

(** X4.  [find_best_available_master] answers [None] exactly when there is
    no candidate, and a master it returns is one of the candidates: it has an
    active row in the city that matches the specialization and it is
    available on the date (at the time asked).  Rating and workload only
    choose among the candidates. *)
Theorem find_best_available_master_candidate (db : DB)
    (specialization city0 : string) (d : Z) (check_time : option time) :
  (find_best_available_master strftime like db specialization city0 d
     check_time = None <->
   get_available_masters strftime like db specialization city0 d check_time
   = [])
  /\ (forall m,
        find_best_available_master strftime like db specialization city0 d
          check_time = Some m ->
        In m (get_available_masters strftime like db specialization city0 d
                check_time)
        /\ is_master_available strftime db m d check_time = true
        /\ exists r,
             In r db /\ id r = m /\ is_active r = true /\ city r = city0
             /\ like (specializations r) specialization = true).
Proof.
  split.
  - apply find_best_available_master_None.
  - intros m Hm. apply find_best_available_master_In in Hm as Hin.
    split; [done|].
    apply get_available_masters_In in Hin as [Hr Ha]. done.
Qed.

(** X27.  When no score is NaN, [find_best_available_master] returns the
    first candidate of maximal score, in the order in which
    [get_available_masters] lists the candidates: every candidate listed
    before it scores strictly less and no candidate scores more.  The score
    is the one the code computes, [(rating or 5.0) * 10 - workload] in
    binary64, and is compared as Python compares floats.  When the table is
    scanned by ascending id, the master returned has the smallest id among
    the candidates that score as high. *)
Theorem find_best_available_master_first_max (db : DB)
    (specialization city0 : string) (d : Z) (check_time : option time) :
  let candidates :=
    get_available_masters strftime like db specialization city0 d check_time in
  (forall x, In x candidates -> score strftime db d x <> S754_nan) ->
  candidates <> [] ->
  exists m l1 l2,
    find_best_available_master strftime like db specialization city0 d
      check_time = Some m
    /\ candidates = l1 ++ m :: l2
    /\ (forall x, In x l1 ->
          SFltb (score strftime db d x) (score strftime db d m) = true)
    /\ (forall x, In x l2 ->
          SFltb (score strftime db d m) (score strftime db d x) = false)
    /\ (StronglySorted Z.lt (map id db) ->
        forall x, In x candidates ->
          SFltb (score strftime db d x) (score strftime db d m) = false ->
          m <= x).
Proof.
  intros candidates Hnan Hne.
  rewrite find_best_available_master_eq. fold candidates.
  destruct (head (sort_desc snd SFltb
              (map (fun master_id => (master_id, score strftime db d master_id))
                 candidates))) as [[m sc]|] eqn:Eh.
  - assert (HP : forall p,
              In p (map (fun x => (x, score strftime db d x)) candidates) ->
              snd p <> S754_nan).
    { intros p Hp. apply in_map_iff in Hp as (x & <- & Hx). by apply Hnan. }
    destruct (sort_desc_head_on (A := Z * spec_float) snd SFltb
                (fun k => k <> S754_nan) SFltb_trans SFltb_negtrans _ _ HP Eh)
      as (p1 & p2 & Ep & H1 & H2).
    assert (Hsplit : exists l1 l2, candidates = l1 ++ m :: l2
              /\ p1 = map (fun x => (x, score strftime db d x)) l1
              /\ p2 = map (fun x => (x, score strftime db d x)) l2
              /\ sc = score strftime db d m).
    { clear -Ep. revert p1 Ep.
      induction candidates as [|c cs IH]; intros p1 Ep.
      - by destruct p1.
      - destruct p1 as [|p p1]; simpl in Ep.
        + injection Ep as <- <- <-. by exists [], cs.
        + injection Ep as <- Ep.
          destruct (IH p1 Ep) as (l1 & l2 & -> & -> & -> & ->).
          by exists (c :: l1), l2. }
    destruct Hsplit as (l1 & l2 & El & -> & -> & ->).
    assert (Hl1 : forall x, In x l1 ->
              SFltb (score strftime db d x) (score strftime db d m) = true).
    { intros x Hx. apply (H1 (x, score strftime db d x)).
      apply in_map_iff. by exists x. }
    exists m, l1, l2. split; [done|]. split; [done|]. split; [done|]. split.
    + intros x Hx. apply (H2 (x, score strftime db d x)).
      apply in_map_iff. by exists x.
    + intros Hsorted x Hx Hsc.
      assert (Hc : StronglySorted Z.lt (l1 ++ m :: l2)).
      { rewrite <- El. apply (StronglySorted_sublist_lt _ (map id db)); [|done].
        unfold candidates, get_available_masters.
        etrans; [apply List_filter_sublist|].
        apply (fmap_sublist id). apply List_filter_sublist. }
      rewrite El in Hx. apply in_app_or in Hx as [Hx|[<-|Hx]].
      * rewrite (Hl1 x Hx) in Hsc. done.
      * lia.
      * pose proof (StronglySorted_app_after _ _ _ Hc x Hx). lia.
  - exfalso. destruct (sort_desc snd SFltb _) eqn:Es; [|done].
    apply sort_desc_nil_inv in Es. apply map_eq_nil in Es. done.
Qed.

End Candidates.

(** ** Bookings under the other operations *)

Section Bookings.

Context (strftime : Z -> string).
Context (fromisoformat : string -> option time).

(** X5.  [update_day_schedule] never loses a booking: whatever its arguments
    and its outcome, every entry that was stored is still stored with the same
    [booked_jobs], and the workload of every master on every date is as
    before. *)
Theorem update_day_schedule_keeps_bookings (db : DB) (m d : Z) (a : bool)
    (st en : option string) :
  let db' := snd (update_day_schedule strftime fromisoformat m d a st en db) in
  (forall m' k entry,
     get_master_schedule db m' !! k = Some entry ->
     exists entry',
       get_master_schedule db' m' !! k = Some entry'
       /\ booked_jobs entry' = booked_jobs entry)
  /\ (forall m' d',
        get_master_workload strftime db' m' d'
        = get_master_workload strftime db m' d').
Proof.
  intros db'. subst db'. rewrite update_day_schedule_eq.
  destruct (parsed_slot fromisoformat a st en) as [slot|e].
  2: { split; [|done]. intros m' k entry H. by exists entry. }
  split.
  - intros m' k entry H. destruct (decide (m' = m)) as [->|Hne].
    + pose proof (lookup_has_master _ _ _ _ H) as Hm.
      rewrite get_master_schedule_set by done.
      destruct (decide (strftime d = k)) as [<-|Hk].
      * rewrite lookup_insert_eq. eexists. split; [done|]. simpl. by rewrite H.
      * rewrite lookup_insert_ne by done. by exists entry.
    + rewrite get_master_schedule_set_ne by done. by exists entry.
  - intros m' d'. unfold get_master_workload.
    destruct (decide (m' = m)) as [->|Hne].
    + destruct (fetch_master db m) as [r|] eqn:Er.
      * rewrite get_master_schedule_set by (by exists r).
        destruct (decide (strftime d = strftime d')) as [Hk|Hk].
        -- rewrite <- Hk, lookup_insert_eq. simpl.
           by destruct (get_master_schedule db m !! strftime d).
        -- by rewrite lookup_insert_ne.
      * unfold set_master_schedule, modify. simpl.
        rewrite update_rows_absent; [done|]. intros [r Hr]. congruence.
    + by rewrite get_master_schedule_set_ne.
Qed.

Lemma book_master_for_job_entry (db : DB) (m j d : Z) (entry : DaySchedule) :
  get_master_schedule db m !! strftime d = Some entry ->
  book_master_for_job strftime m j d db
  = set_master_schedule m
      (<[strftime d := booked_jobs_append entry j]> (get_master_schedule db m))
      db.
Proof. intros H. unfold book_master_for_job, bind, gets. simpl. by rewrite H. Qed.

Lemma book_master_for_job_none (db : DB) (m j d : Z) :
  get_master_schedule db m !! strftime d = None ->
  book_master_for_job strftime m j d db = (Return tt, db).
Proof. intros H. unfold book_master_for_job, bind, gets. simpl. by rewrite H. Qed.

Lemma run_all_cons (c : command) (cs : list command) (db : DB) :
  run_all strftime fromisoformat (c :: cs) db
  = run_all strftime fromisoformat cs (snd (run strftime fromisoformat c db)).
Proof. done. Qed.

Lemma book_sequence_lookup (jobs : list Z) (db : DB) (m d : Z)
    (entry : DaySchedule) :
  get_master_schedule db m !! strftime d = Some entry ->
  get_master_schedule
    (run_all strftime fromisoformat (map (fun j => Book m j d) jobs) db) m
    !! strftime d
  = Some (mk_DaySchedule (date entry) (available entry) (time_slot entry)
            (booked_jobs entry ++ jobs)).
Proof.
  revert db entry. induction jobs as [|j jobs IH]; intros db entry H.
  - simpl. rewrite H, app_nil_r. by destruct entry.
  - change (map (fun j0 => Book m j0 d) (j :: jobs))
      with (Book m j d :: map (fun j0 => Book m j0 d) jobs).
    rewrite run_all_cons.
    change (run strftime fromisoformat (Book m j d) db)
      with (book_master_for_job strftime m j d db).
    pose proof (lookup_has_master _ _ _ _ H) as Hm.
    rewrite (book_master_for_job_entry db m j d entry H).
    rewrite (IH _ (booked_jobs_append entry j)).
    + simpl. by rewrite <- app_assoc.
    + rewrite get_master_schedule_set by done. apply lookup_insert_eq.
Qed.

(** X6.  Bookings accumulate in call order: after [book_master_for_job] for
    the jobs [jobs], one call each, on a date that has an entry, the entry
    holds its former [booked_jobs] followed by [jobs] and is otherwise
    unchanged, and the workload has grown by the number of calls. *)
Theorem book_master_for_job_sequence (db : DB) (m d : Z) (jobs : list Z)
    (entry : DaySchedule) :
  get_master_schedule db m !! strftime d = Some entry ->
  let db' :=
    run_all strftime fromisoformat (map (fun j => Book m j d) jobs) db in
  get_master_schedule db' m !! strftime d
  = Some (mk_DaySchedule (date entry) (available entry) (time_slot entry)
            (booked_jobs entry ++ jobs))
  /\ get_master_workload strftime db' m d
     = get_master_workload strftime db m d + Z.of_nat (length jobs).
Proof.
  intros H db'. subst db'. unfold get_master_workload.
  rewrite (book_sequence_lookup jobs db m d entry H), H. simpl.
  split; [done|]. rewrite length_app. lia.
Qed.

(** X7.  A booking changes nothing but the list of jobs of its entry:
    [is_master_available] answers as before for every master, date and time,
    so no number of bookings makes a day unavailable, and every other entry
    and every other master's record is untouched. *)
Theorem book_master_for_job_frame (db : DB) (m j d : Z) :
  let db' := snd (book_master_for_job strftime m j d db) in
  (forall m' d' t,
     is_master_available strftime db' m' d' t
     = is_master_available strftime db m' d' t)
  /\ (forall k, k <> strftime d ->
        get_master_schedule db' m !! k = get_master_schedule db m !! k)
  /\ (forall m', m' <> m ->
        get_master_schedule db' m' = get_master_schedule db m').
Proof.
  intros db'. subst db'.
  destruct (get_master_schedule db m !! strftime d) as [entry|] eqn:E.
  2: { by rewrite book_master_for_job_none. }
  rewrite (book_master_for_job_entry db m j d entry E).
  pose proof (lookup_has_master _ _ _ _ E) as Hm.
  split; [|split].
  - intros m' d' t. unfold is_master_available.
    destruct (decide (m' = m)) as [->|Hne].
    + rewrite get_master_schedule_set by done.
      destruct (decide (strftime d = strftime d')) as [Hk|Hk].
      * rewrite <- Hk, lookup_insert_eq, E. done.
      * by rewrite lookup_insert_ne.
    + by rewrite get_master_schedule_set_ne.
  - intros k Hk. rewrite get_master_schedule_set by done.
    by rewrite lookup_insert_ne.
  - intros m' Hne. by apply get_master_schedule_set_ne.
Qed.

End Bookings.

(** ** The weekly schedule, further *)

Lemma weekday_range (d : Z) : 0 <= weekday d < 7.
Proof. unfold weekday. apply Z.mod_pos_bound. lia. Qed.

(** Seven consecutive days meet every weekday. *)
Lemma weekday_week (today w : Z) :
  0 <= w < 7 -> exists i, 0 <= i < 7 /\ weekday (today + i) = w.
Proof.
  intros Hw. exists ((w - today - 6) mod 7). split.
  - apply Z.mod_pos_bound. lia.
  - unfold weekday.
    rewrite <- Z.add_assoc, (Z.add_comm _ 6), Z.add_assoc.
    rewrite Z.add_mod_idemp_r by lia.
    replace (today + 6 + (w - today - 6)) with w by lia.
    apply Z.mod_small. lia.
Qed.

Section WeeklyFurther.

Context (strftime : Z -> string).
Context (fromisoformat : string -> option time).
Hypothesis strftime_inj : forall d d' : Z, strftime d = strftime d' -> d = d'.

Lemma weekly_loop_raises (ds de : string) (wd : list Z) (today : Z)
    (range : list Z) (schedule : gmap string DaySchedule) (db : DB) :
  fst (weekly_loop strftime fromisoformat ds de wd today range schedule db)
  = Raise ValueError <->
  (exists i, In i range /\ Zmem (weekday (today + i)) wd = true)
  /\ (fromisoformat ds = None \/ fromisoformat de = None).
Proof.
  revert schedule. induction range as [|i range IH]; intros schedule.
  - simpl. split; [done|]. by intros [(i & [] & _) _].
  - simpl. unfold bind, time_fromisoformat.
    destruct (Zmem (weekday (today + i)) wd) eqn:Ei.
    + destruct (fromisoformat ds) as [s|] eqn:Es; simpl.
      * destruct (fromisoformat de) as [e|] eqn:Ee; simpl.
        -- rewrite IH. split; [|by intros [_ [?|?]]].
           by intros [_ [?|?]].
        -- split; [|done]. intros _. split; [|by right].
           exists i. split; [by left|done].
      * split; [|done]. intros _. split; [|by left].
        exists i. split; [by left|done].
    + simpl. rewrite IH. split.
      * intros [(i' & Hi' & Hz) Hp]. split; [|done].
        exists i'. split; [by right|done].
      * intros [(i' & [<-|Hi'] & Hz) Hp]; [congruence|].
        split; [|done]. by exists i'.
Qed.

(** X9.  [create_weekly_schedule] raises exactly when the working days name
    at least one weekday 0..6 and [time.fromisoformat] rejects one of the two
    default times, and then the store is unchanged; in every other case it
    returns.  In particular with no working day it returns whatever the time
    strings are, since they are never parsed. *)
Theorem create_weekly_schedule_raises (db : DB) (m : Z) (ds de : string)
    (working_days : option (list Z)) (today : Z) :
  let wd := default [0; 1; 2; 3; 4] working_days in
  let run := create_weekly_schedule strftime fromisoformat m ds de
               working_days today in
  (fst (run db) = Raise ValueError <->
   (exists w, In w wd /\ 0 <= w < 7)
   /\ (fromisoformat ds = None \/ fromisoformat de = None))
  /\ (fst (run db) = Raise ValueError -> snd (run db) = db)
  /\ (fst (run db) <> Raise ValueError -> fst (run db) = Return tt)
  /\ (working_days = Some [] -> fst (run db) = Return tt).
Proof.
  intros wd run. subst run.
  assert (Hw : (exists i, In i [0; 1; 2; 3; 4; 5; 6]
                          /\ Zmem (weekday (today + i)) wd = true)
               <-> exists w, In w wd /\ 0 <= w < 7).
  { split.
    - intros (i & _ & Hz). exists (weekday (today + i)).
      split; [by apply Zmem_In|apply weekday_range].
    - intros (w & Hin & Hr). destruct (weekday_week today w Hr) as (i & Hi & <-).
      exists i. split; [by apply week_range_In|by apply Zmem_In]. }
  pose proof (weekly_loop_raises ds de wd today [0; 1; 2; 3; 4; 5; 6] ∅ db)
    as Hraise.
  pose proof (weekly_loop_inv strftime fromisoformat ds de wd today
                [0; 1; 2; 3; 4; 5; 6] ∅ db schedule_inv_empty) as [Hdb _].
  rewrite Hw in Hraise.
  unfold create_weekly_schedule, bind. fold wd.
  destruct (weekly_loop strftime fromisoformat ds de wd today
              [0; 1; 2; 3; 4; 5; 6] ∅ db) as [[schedule|[]] db0];
    simpl in *; subst db0.
  - split; [|split; [|split]]; try done.
    split; [done|]. intros H. by apply Hraise in H.
  - split; [|split; [|split]]; try done.
    + split; [intros _; by apply Hraise|done].
    + intros Hwd. destruct (proj1 Hraise eq_refl) as [(w & Hin & _) _].
      subst wd. rewrite Hwd in Hin. destruct Hin.
Qed.

(** X10.  After a [create_weekly_schedule] that returns, a master is
    available on a day of the week starting today exactly when the weekday of
    that day is a working day, at a time [t] exactly when moreover
    [start <= t <= end] for the two default times, and on no date outside the
    seven days.  (This is the scenario of [test_schedule_manager].) *)
Theorem create_weekly_schedule_available (db : DB) (m : Z) (ds de : string)
    (working_days : option (list Z)) (today : Z) (s e : time) :
  has_master db m ->
  fromisoformat ds = Some s ->
  fromisoformat de = Some e ->
  let wd := default [0; 1; 2; 3; 4] working_days in
  let db' :=
    snd (create_weekly_schedule strftime fromisoformat m ds de working_days
           today db) in
  (forall i, 0 <= i < 7 ->
     is_master_available strftime db' m (today + i) None
     = Zmem (weekday (today + i)) wd
     /\ forall t,
          is_master_available strftime db' m (today + i) (Some t)
          = Zmem (weekday (today + i)) wd && time_leb s t && time_leb t e)
  /\ (forall d check_time,
        ~ (today <= d < today + 7) ->
        is_master_available strftime db' m d check_time = false).
Proof.
  intros Hm Hs He wd db'. subst db'.
  unfold create_weekly_schedule, bind.
  rewrite (weekly_loop_parsed strftime fromisoformat _ _ s e) by done. fold wd.
  unfold is_master_available. rewrite get_master_schedule_set by done.
  split.
  - intros i Hi.
    rewrite (weekly_fold_lookup strftime strftime_inj)
      by (apply week_range_NoDup || by apply week_range_In).
    unfold weekly_entry, is_available_at, TimeSlot_contains. simpl.
    split; [done|]. intros t.
    destruct (Zmem (weekday (today + i)) wd); simpl; [|done].
    by destruct (time_leb s t), (time_leb t e).
  - intros d check_time Hd. rewrite weekly_fold_other; [by rewrite lookup_empty|].
    intros i Hi E. apply week_range_In in Hi. apply strftime_inj in E. lia.
Qed.

(** X11.  A [create_weekly_schedule] that returns erases every booking of
    the master: afterwards its workload is 0 on every date, also on the dates
    of the new week that had booked jobs. *)
Theorem create_weekly_schedule_workload (db : DB) (m : Z) (ds de : string)
    (working_days : option (list Z)) (today : Z) :
  has_master db m ->
  fst (create_weekly_schedule strftime fromisoformat m ds de working_days
         today db) = Return tt ->
  forall d,
    get_master_workload strftime
      (snd (create_weekly_schedule strftime fromisoformat m ds de working_days
              today db)) m d = 0.
Proof.
  intros Hm. unfold create_weekly_schedule, bind.
  set (wd := default [0; 1; 2; 3; 4] working_days).
  assert (Hjobs : forall range schedule db0 schedule',
    (forall k entry, schedule !! k = Some entry -> booked_jobs entry = []) ->
    fst (weekly_loop strftime fromisoformat ds de wd today range schedule db0)
    = Return schedule' ->
    forall k entry, schedule' !! k = Some entry -> booked_jobs entry = []).
  { induction range as [|i range IH]; intros schedule db0 schedule' Hs.
    - simpl. intros [= <-]. done.
    - simpl. unfold bind, time_fromisoformat.
      destruct (Zmem (weekday (today + i)) wd).
      + destruct (fromisoformat ds) as [s|]; simpl; [|done].
        destruct (fromisoformat de) as [e|]; simpl; [|done].
        apply IH. intros k entry.
        destruct (decide (strftime (today + i) = k)) as [<-|Hk].
        * rewrite lookup_insert_eq. by intros [= <-].
        * rewrite lookup_insert_ne by done. apply Hs.
      + simpl. apply IH. intros k entry.
        destruct (decide (strftime (today + i) = k)) as [<-|Hk].
        * rewrite lookup_insert_eq. by intros [= <-].
        * rewrite lookup_insert_ne by done. apply Hs. }
  specialize (Hjobs [0; 1; 2; 3; 4; 5; 6] ∅ db).
  destruct (weekly_loop strftime fromisoformat ds de wd today
              [0; 1; 2; 3; 4; 5; 6] ∅ db) as [[schedule|e] db0] eqn:El;
    cbn [fst snd]; [|done].
  intros _ d.
  pose proof (weekly_loop_inv strftime fromisoformat ds de wd today
                [0; 1; 2; 3; 4; 5; 6] ∅ db schedule_inv_empty) as [Hdb _].
  rewrite El in Hdb. simpl in Hdb. subst db0.
  unfold get_master_workload. rewrite get_master_schedule_set by done.
  destruct (schedule !! strftime d) as [entry|] eqn:E; [|done].
  by rewrite (Hjobs schedule) with (k := strftime d) (entry := entry).
Qed.

End WeeklyFurther.

(** ** Slots as intervals *)

Lemma time_leb_lex (a b : time) :
  time_leb a b = true <->
  hour a < hour b
  \/ (hour a = hour b
      /\ (minute a < minute b
          \/ (minute a = minute b
              /\ (second a < second b
                  \/ (second a = second b
                      /\ microsecond a <= microsecond b))))).
Proof.
  unfold time_leb, time_compare.
  destruct (Z.compare_spec (hour a) (hour b));
    destruct (Z.compare_spec (minute a) (minute b));
    destruct (Z.compare_spec (second a) (second b));
    destruct (Z.compare_spec (microsecond a) (microsecond b));
    split; intros Hx; first [done | lia | exfalso; lia].
Qed.

Lemma time_leb_trans (a b c : time) :
  time_leb a b = true -> time_leb b c = true -> time_leb a c = true.
Proof. rewrite !time_leb_lex. lia. Qed.

Section SlotInterval.

Context (strftime : Z -> string).
Context (fromisoformat : string -> option time).

(** X12.  After [update_day_schedule] with [available = true] and two times
    that parse, the master is available on that date, and at a time [t]
    exactly when [start <= t <= end].  The order of the two times is not
    checked: when the start is after the end the slot is stored as given and
    the master is available at no time of that day, though still available
    when no time is asked. *)
Theorem update_day_schedule_slot (db : DB) (m d : Z) (st en : option string)
    (s e : time) :
  has_master db m ->
  truthy st = true -> truthy en = true ->
  fromisoformat (str_of st) = Some s ->
  fromisoformat (str_of en) = Some e ->
  let db' :=
    snd (update_day_schedule strftime fromisoformat m d true st en db) in
  is_master_available strftime db' m d None = true
  /\ (forall t,
        is_master_available strftime db' m d (Some t)
        = time_leb s t && time_leb t e)
  /\ (time_leb s e = false ->
      forall t, is_master_available strftime db' m d (Some t) = false).
Proof.
  intros Hm Hs He Ps Pe db'. subst db'.
  rewrite update_day_schedule_eq,
    (parsed_slot_given fromisoformat st en s e Hs He Ps Pe).
  unfold is_master_available. rewrite get_master_schedule_set by done.
  rewrite lookup_insert_eq. split; [done|].
  unfold is_available_at, TimeSlot_contains. simpl. split; [done|].
  intros Hinv t.
  destruct (time_leb s t) eqn:E1; [|done].
  destruct (time_leb t e) eqn:E2; [|done].
  by rewrite (time_leb_trans s t e E1 E2) in Hinv.
Qed.

End SlotInterval.

(** ** Confirming the schedule *)

(** X13.  [confirm_daily_schedule] always answers [True], also for an id
    without row.  For a master with a row it records the time of the call: no
    confirmation is needed at that time nor during the twelve hours that
    follow, and one is needed at every later time.  It touches no schedule and
    no other master's confirmation. *)
Theorem confirm_daily_schedule_spec (db : DB) (m now0 : Z) :
  let db' := snd (confirm_daily_schedule m now0 db) in
  fst (confirm_daily_schedule m now0 db) = Return true
  /\ (has_master db m ->
      forall now,
        needs_schedule_confirmation db' m now = true <-> now - now0 > hours 12)
  /\ (forall m', get_master_schedule db' m' = get_master_schedule db m')
  /\ (forall m' now, m' <> m ->
        needs_schedule_confirmation db' m' now
        = needs_schedule_confirmation db m' now).
Proof.
  intros db'. subst db'. split; [done|]. split; [|split].
  - intros Hm now.
    rewrite (proj2 (confirm_daily_schedule_needs db m now0 now Hm)).
    rewrite Z.ltb_lt. lia.
  - intros m'. unfold get_master_schedule, confirm_daily_schedule, bind, modify.
    simpl. unfold fetch_master.
    induction db as [|r db IH]; [done|]. simpl.
    destruct (id r =? m) eqn:E; simpl.
    + destruct (id r =? m'); [done|apply IH].
    + destruct (id r =? m'); [done|apply IH].
  - intros m' now Hne.
    unfold needs_schedule_confirmation, confirm_daily_schedule, bind, modify.
    simpl. unfold fetch_master.
    induction db as [|r db IH]; [done|]. simpl.
    destruct (id r =? m) eqn:E; simpl.
    + apply Z.eqb_eq in E.
      replace (id r =? m') with false by (symmetry; apply Z.eqb_neq; congruence).
      apply IH.
    + destruct (id r =? m'); [done|apply IH].
Qed.

(** * Serialisation *)

Section SerialisationProperties.

Context (strftime : Z -> string).
Context (strptime : string -> option Z).
Context (isoformat : time -> string).
Context (fromisoformat : string -> option time).

(** X14.  Reading back what was written: when [strptime] inverts [strftime]
    on the date of an entry and [time.fromisoformat] inverts [isoformat] on
    the two times of its slot, [from_dict] of [to_dict] is the entry itself,
    with or without slot, and a stored record is read back entry by entry.
    An object without ["booked_jobs"] is read as a day without bookings. *)
Theorem DaySchedule_dict_roundtrip :
  (forall entry,
     strptime (strftime (date entry)) = Some (date entry) ->
     (forall slot,
        time_slot entry = Some slot ->
        fromisoformat (isoformat (slot_start slot)) = Some (slot_start slot)
        /\ fromisoformat (isoformat (slot_end slot)) = Some (slot_end slot)) ->
     DaySchedule_from_dict strptime fromisoformat
       (DaySchedule_to_dict strftime isoformat entry) = Return entry)
  /\ (forall (schedule : gmap string DaySchedule),
        (forall k entry,
           schedule !! k = Some entry ->
           DaySchedule_from_dict strptime fromisoformat
             (DaySchedule_to_dict strftime isoformat entry) = Return entry) ->
        forall k,
          DaySchedule_from_dict strptime fromisoformat
            <$> (DaySchedule_to_dict strftime isoformat <$> schedule) !! k
          = Return <$> schedule !! k)
  /\ (forall data entry,
        dd_booked_jobs data = None ->
        DaySchedule_from_dict strptime fromisoformat data = Return entry ->
        booked_jobs entry = []).
Proof.
  split; [|split].
  - intros [d a slot jobs] Hd Hs. unfold DaySchedule_from_dict,
      DaySchedule_to_dict, TimeSlot_from_dict, TimeSlot_to_dict. simpl in *.
    rewrite Hd. destruct slot as [[s e]|]; [|done].
    destruct (Hs _ eq_refl) as [Hs1 Hs2]. simpl in Hs1, Hs2. simpl.
    by rewrite Hs1, Hs2.
  - intros schedule H k. rewrite lookup_fmap.
    destruct (schedule !! k) as [entry|] eqn:E; [|done].
    simpl. f_equal. by apply (H k).
  - intros data entry Hb. unfold DaySchedule_from_dict. rewrite Hb.
    destruct (strptime (dd_date data)); [|done].
    destruct (dd_time_slot data) as [ts|].
    + destruct (TimeSlot_from_dict fromisoformat ts); [|done].
      by intros [= <-].
    + by intros [= <-].
Qed.

End SerialisationProperties.

(** * The terminal switch and the listing of main.py *)

Lemma rowcount_has_master (db : DB) (m : Z) :
  Main.rowcount db m = 0%nat <-> ~ has_master db m.
Proof.
  unfold Main.rowcount, has_master, fetch_master.
  induction db as [|r db IH]; simpl.
  - split; [|done]. by intros _ [r Hr].
  - destruct (id r =? m); simpl.
    + split; [done|]. intros H. exfalso. apply H. by eexists.
    + done.
Qed.

Lemma fetch_master_terminal (db : DB) (m m' : Z) (b : bool) :
  fetch_master
    (map (fun r => if id r =? m then Main.with_terminal_active r b else r) db)
    m'
  = (fun r => if id r =? m then Main.with_terminal_active r b else r)
      <$> fetch_master db m'.
Proof.
  unfold fetch_master. induction db as [|r db IH]; [done|]. simpl.
  destruct (id r =? m) eqn:E; simpl; destruct (id r =? m') eqn:E'; simpl;
    by rewrite ?E, ?IH.
Qed.

Lemma get_master_schedule_terminal (db : DB) (m m' : Z) (b : bool) :
  get_master_schedule
    (map (fun r => if id r =? m then Main.with_terminal_active r b else r) db)
    m'
  = get_master_schedule db m'.
Proof.
  unfold get_master_schedule. rewrite fetch_master_terminal.
  destruct (fetch_master db m') as [r|]; [|done]. simpl.
  by destruct (id r =? m).
Qed.

Section Terminal.

Context (like : string -> string -> bool).

Lemma find_available_master_None (db : DB) (category city0 : string) :
  find_available_master like db category city0 = None <->
  forall r, In r db -> eligible like category city0 r = false.
Proof.
  unfold find_available_master. fold (eligible like category city0).
  destruct (sort_desc rating rating_ltb
              (List.filter (eligible like category city0) db)) as [|r0 rs] eqn:Es.
  - apply sort_desc_nil_inv in Es. split; [|done]. intros _ r Hr.
    destruct (eligible like category city0 r) eqn:E; [|done].
    assert (In r (List.filter (eligible like category city0) db))
      by (by apply filter_In).
    rewrite Es in *. done.
  - split; [done|]. intros H. exfalso.
    assert (Hin : In r0 (List.filter (eligible like category city0) db)).
    { apply (Permutation_in _ (sort_desc_Permutation rating rating_ltb _)).
      rewrite Es. by left. }
    apply filter_In in Hin as [Hin He]. by rewrite (H r0 Hin) in He.
Qed.

Lemma find_available_master_Some (db : DB) (category city0 : string) (m : Z) :
  find_available_master like db category city0 = Some m ->
  exists r, In r db /\ id r = m /\ eligible like category city0 r = true.
Proof.
  unfold find_available_master. fold (eligible like category city0).
  destruct (sort_desc rating rating_ltb
              (List.filter (eligible like category city0) db)) as [|r0 rs] eqn:Es;
    [done|].
  intros [= <-].
  assert (Hin : In r0 (List.filter (eligible like category city0) db)).
  { apply (Permutation_in _ (sort_desc_Permutation rating rating_ltb _)).
    rewrite Es. by left. }
  apply filter_In in Hin as [Hin He]. by exists r0.
Qed.

(** X15.  [activate_terminal] answers 404 exactly when the id has no row,
    and then changes nothing.  Otherwise it succeeds, every row of that id has
    its terminal active afterwards, the rows of the other ids are untouched
    and no schedule changes.  Activating twice is the same as activating
    once. *)
Theorem activate_terminal_spec (db : DB) (m : Z) :
  let db' := snd (Main.activate_terminal m db) in
  (fst (Main.activate_terminal m db) = Main.HTTPException 404 <->
   ~ has_master db m)
  /\ (~ has_master db m -> db' = db)
  /\ (has_master db m ->
      fst (Main.activate_terminal m db) = Main.Respond tt
      /\ (forall r, In r db' -> id r = m -> terminal_active r = true)
      /\ Main.activate_terminal m db' = (Main.Respond tt, db'))
  /\ (forall r, id r <> m -> In r db' <-> In r db)
  /\ (forall m', get_master_schedule db' m' = get_master_schedule db m').
Proof.
  intros db'. subst db'. unfold Main.activate_terminal.
  pose proof (rowcount_has_master db m) as Hrc.
  destruct (Main.rowcount db m =? 0)%nat eqn:E.
  - apply Nat.eqb_eq in E. apply Hrc in E. simpl.
    split; [done|]. split; [done|]. split; [done|]. done.
  - apply Nat.eqb_neq in E. simpl.
    assert (Hm : has_master db m).
    { unfold has_master. destruct (fetch_master db m) as [r|] eqn:Ef;
        [by eexists|].
      exfalso. apply E, Hrc. intros [r Hr]. unfold has_master in *. congruence. }
    split; [split; [done|by intros H]|]. split; [done|].
    split; [|split].
    + intros _. split; [done|]. split.
      * intros r Hr Hid. apply in_map_iff in Hr as (r0 & <- & Hr0).
        destruct (id r0 =? m) eqn:E0; [done|].
        simpl in Hid. apply Z.eqb_neq in E0. done.
      * set (db' := map _ db).
        assert (Hrc' : Main.rowcount db' m = Main.rowcount db m).
        { unfold Main.rowcount, db'. clear. induction db as [|r db IH]; [done|].
          simpl. destruct (id r =? m) eqn:E; simpl; rewrite E; simpl;
            by rewrite IH. }
        rewrite Hrc'. apply Nat.eqb_neq in E. rewrite E. f_equal.
        unfold db'. rewrite map_map. apply map_ext. intros r.
        destruct (id r =? m) eqn:E0; simpl; by rewrite E0.
    + intros r Hne. rewrite in_map_iff. split.
      * intros (r0 & <- & Hr0). destruct (id r0 =? m) eqn:E0; [|done].
        simpl in Hne. apply Z.eqb_eq in E0. done.
      * intros Hr. exists r. split; [|done].
        by replace (id r =? m) with false by (symmetry; by apply Z.eqb_neq).
    + intros m'. apply get_master_schedule_terminal.
Qed.

(** X16.  The terminal switch decides whether the job-intake lookup can see
    a master.  After a successful [activate_terminal] an active master of the
    city that matches the category makes [find_available_master] return
    someone; after [update_terminal_status] with a false or missing value the
    master is never returned, for any category and city.  The latter call
    always succeeds, also for an id without row, and changes no schedule. *)
Theorem terminal_switch_find_available_master (db : DB) (m : Z) :
  (forall r category,
     In r db -> id r = m -> is_active r = true ->
     like (specializations r) category = true ->
     find_available_master like (snd (Main.activate_terminal m db)) category
       (city r) <> None)
  /\ (forall data category city0,
        default false data = false ->
        fst (Main.update_terminal_status m data db) = Main.Respond false
        /\ find_available_master like
             (snd (Main.update_terminal_status m data db)) category city0
           <> Some m)
  /\ (forall data m',
        get_master_schedule (snd (Main.update_terminal_status m data db)) m'
        = get_master_schedule db m').
Proof.
  split; [|split].
  - intros r category Hr Hid Ha Hl Hnone.
    rewrite find_available_master_None in Hnone.
    unfold Main.activate_terminal in Hnone.
    destruct (Main.rowcount db m =? 0)%nat eqn:E.
    + apply Nat.eqb_eq, rowcount_has_master in E. apply E.
      unfold has_master, fetch_master.
      destruct (List.find (fun r0 => id r0 =? m) db) as [r'|] eqn:Ef;
        [by eexists|].
      pose proof (find_none _ _ Ef r Hr) as H. simpl in H.
      apply Z.eqb_neq in H. done.
    + simpl in Hnone.
      specialize (Hnone (Main.with_terminal_active r true)).
      unfold eligible in Hnone. simpl in Hnone.
      rewrite Ha, Hl, String.eqb_refl in Hnone. simpl in Hnone.
      assert (H : false = true); [|done]. symmetry. apply Hnone.
      apply in_map_iff. exists r. split; [|done].
      by replace (id r =? m) with true by (symmetry; by apply Z.eqb_eq).
  - intros data category city0 Hd. unfold Main.update_terminal_status.
    rewrite Hd. simpl. split; [done|]. intros Hs.
    apply find_available_master_Some in Hs as (r & Hr & Hid & He).
    apply in_map_iff in Hr as (r0 & <- & Hr0).
    destruct (id r0 =? m) eqn:E0.
    + unfold eligible in He. simpl in He.
      by rewrite andb_false_r in He.
    + apply Z.eqb_neq in E0. done.
  - intros data m'. unfold Main.update_terminal_status. simpl.
    apply get_master_schedule_terminal.
Qed.

(** The listing and the lookup ask for the same rows. *)
Lemma listing_filter_eligible (category city0 : string) (db : DB) :
  truthy (Some city0) = true ->
  List.filter
    (fun r =>
       is_active r && terminal_active r && like (specializations r) category
       && (if truthy (Some city0) then String.eqb (city r) (str_of (Some city0))
           else true)) db
  = List.filter (eligible like category city0) db.
Proof.
  intros Ht. rewrite Ht. apply filter_ext. intros r. unfold eligible. simpl.
  destruct (is_active r), (terminal_active r), (String.eqb (city r) city0),
    (like (specializations r) category); done.
Qed.

(** X17.  The listing [get_available_masters] of main.py contains exactly
    the rows that are active, have an active terminal, match the category
    and, when a city is given, are in that city; it is ordered by descending
    rating, a row without rating last.  With a city, [find_available_master]
    returns the id of the first row of the listing, and [None] when the
    listing is empty. *)
Theorem get_available_masters_listing (db : DB) (category : string)
    (city0 : option string) :
  let listing := Main.get_available_masters like category city0 db in
  (forall r,
     In r listing <->
     In r db /\ is_active r = true /\ terminal_active r = true
     /\ like (specializations r) category = true
     /\ (truthy city0 = true -> city r = str_of city0))
  /\ StronglySorted
       (fun r r' => rating_ltb (rating r) (rating r') = false) listing
  /\ (length listing <= length db)%nat
  /\ (forall c, city0 = Some c -> truthy city0 = true ->
        find_available_master like db category c = id <$> head listing).
Proof.
  intros listing. subst listing. unfold Main.get_available_masters.
  split; [|split; [|split]].
  - intros r. split.
    + intros Hr.
      apply (Permutation_in _ (sort_desc_Permutation rating rating_ltb _)) in Hr.
      apply filter_In in Hr as [Hr Hc].
      rewrite !andb_true_iff in Hc. destruct Hc as [[[Ha Ht] Hl] Hc].
      repeat (split; [done|]). intros Htr. rewrite Htr in Hc.
      by apply String.eqb_eq.
    + intros (Hr & Ha & Ht & Hl & Hc).
      apply (Permutation_in _
               (Permutation_sym (sort_desc_Permutation rating rating_ltb _))).
      apply filter_In. split; [done|]. rewrite Ha, Ht, Hl. simpl.
      destruct (truthy city0); [|done]. apply String.eqb_eq. by apply Hc.
  - apply sort_desc_StronglySorted.
    + apply rating_ltb_negtrans.
    + intros [a|] [b|]; simpl; try done. rewrite Qltb_lt, Qltb_ge.
      apply Qlt_le_weak.
  - rewrite (Permutation_length (sort_desc_Permutation rating rating_ltb _)).
    apply Nat.le_trans with (length (List.filter
      (fun r => is_active r && terminal_active r
                && like (specializations r) category
                && (if truthy city0 then String.eqb (city r) (str_of city0)
                    else true)) db)); [done|].
    apply sublist_length, List_filter_sublist.
  - intros c -> Ht. rewrite (listing_filter_eligible category c db Ht).
    unfold find_available_master. fold (eligible like category c).
    by destruct (sort_desc rating rating_ltb
                   (List.filter (eligible like category c) db)).
Qed.

End Terminal.

(** * The jobs table of main.py *)

Lemma jobs_rowcount_zero (p : Main.Job -> bool) (t : Main.Jobs) :
  Main.jobs_rowcount p t = 0%nat <->
  forall j, In j (Main.job_rows t) -> p j = false.
Proof.
  unfold Main.jobs_rowcount. generalize (Main.job_rows t). intros l.
  induction l as [|j l IH]; simpl.
  - split; [by intros _ j []|done].
  - destruct (p j) eqn:E; simpl.
    + split; [done|]. intros H. by rewrite (H j (or_introl eq_refl)) in E.
    + rewrite IH. split.
      * intros H j' [<-|Hj']; [done|by apply H].
      * intros H j' Hj'. apply H. by right.
Qed.

Lemma update_jobs_none (p : Main.Job -> bool) (f : Main.Job -> Main.Job)
    (t : Main.Jobs) :
  (forall j, In j (Main.job_rows t) -> p j = false) ->
  Main.update_jobs p f t = t.
Proof.
  intros H. unfold Main.update_jobs. destruct t as [rows seq]. simpl in *.
  f_equal. rewrite <- (map_id rows) at 2. apply map_ext_in. intros j Hj.
  by rewrite (H j Hj).
Qed.

Lemma update_jobs_In (p : Main.Job -> bool) (f : Main.Job -> Main.Job)
    (t : Main.Jobs) (j' : Main.Job) :
  In j' (Main.job_rows (Main.update_jobs p f t)) <->
  exists j, In j (Main.job_rows t)
            /\ j' = (if p j then f j else j).
Proof.
  unfold Main.update_jobs. simpl. rewrite in_map_iff. split.
  - intros (j & <- & Hj). by exists j.
  - intros (j & Hj & ->). by exists j.
Qed.







(** X19.  [update_job_status] accepts the five statuses only: any other
    value, or none, answers 400 and changes nothing.  With an accepted status
    it always succeeds, also when no job has that id, gives the status to
    every job of the id and leaves the other jobs as they are.  The statuses
    that [master_depart] and [master_arrive] write are not among the five. *)
Theorem update_job_status_spec (t : Main.Jobs) (id0 : Z) :
  Main.update_job_status id0 None t = (Main.HTTPException 400, t)
  /\ (forall s, ~ In s Main.job_statuses ->
        Main.update_job_status id0 (Some s) t = (Main.HTTPException 400, t))
  /\ (forall s, In s Main.job_statuses ->
        let t' := snd (Main.update_job_status id0 (Some s) t) in
        fst (Main.update_job_status id0 (Some s) t) = Main.Respond s
        /\ (forall j, In j (Main.job_rows t') ->
              Main.job_id j = id0 -> Main.status j = s)
        /\ (forall j, Main.job_id j <> id0 ->
              In j (Main.job_rows t') <-> In j (Main.job_rows t))
        /\ ((forall j, In j (Main.job_rows t) -> Main.job_id j <> id0) ->
            t' = t))
  /\ ~ In "on-the-way"%string Main.job_statuses
  /\ ~ In "arrived"%string Main.job_statuses.
Proof.
  assert (Hin : forall s, existsb (String.eqb s) Main.job_statuses = true
                          <-> In s Main.job_statuses).
  { intros s. rewrite existsb_exists. split.
    - intros (x & Hx & E). apply String.eqb_eq in E. by subst.
    - intros H. exists s. split; [done|apply String.eqb_refl]. }
  split; [done|]. split; [|split; [|split]].
  - intros s Hs. unfold Main.update_job_status.
    destruct (existsb (String.eqb s) Main.job_statuses) eqn:E; [|done].
    by apply Hin in E.
  - intros s Hs t'. subst t'. unfold Main.update_job_status.
    rewrite (proj2 (Hin s) Hs). simpl. split; [done|]. split; [|split].
    + intros j' Hj' Hid. apply in_map_iff in Hj' as (j & <- & Hj).
      destruct (Main.job_id j =? id0) eqn:E; [done|].
      apply Z.eqb_neq in E. done.
    + intros j' Hne. rewrite in_map_iff. split.
      * intros (j & <- & Hj). destruct (Main.job_id j =? id0) eqn:E; [|done].
        simpl in Hne. apply Z.eqb_eq in E. done.
      * intros Hj. exists j'. split; [|done].
        by replace (Main.job_id j' =? id0) with false
          by (symmetry; by apply Z.eqb_neq).
    + intros Hno. apply (update_jobs_none (fun j => Main.job_id j =? id0)).
      intros j Hj. apply Z.eqb_neq. by apply Hno.
  - simpl. intros H. repeat destruct H as [H|H]; discriminate H || done.
  - simpl. intros H. repeat destruct H as [H|H]; discriminate H || done.
Qed.

(** X20.  The terminal form of [update_job_status] answers 404 exactly when
    no job of that id belongs to the master, and then changes nothing; a
    master can therefore not change the status of a job of another master or
    of a job without master.  When it succeeds the jobs of that id and master
    take the status and every other row is untouched. *)
Theorem terminal_update_job_status_spec (t : Main.Jobs) (master id0 : Z)
    (s : string) :
  let t' := snd (Main.terminal_update_job_status master id0 s t) in
  (fst (Main.terminal_update_job_status master id0 s t)
   = Main.HTTPException 404 <->
   forall j, In j (Main.job_rows t) ->
     ~ (Main.job_id j = id0 /\ Main.master_id j = Some master))
  /\ (fst (Main.terminal_update_job_status master id0 s t)
      = Main.HTTPException 404 -> t' = t)
  /\ (forall j, In j (Main.job_rows t) ->
        Main.master_id j <> Some master -> In j (Main.job_rows t'))
  /\ (fst (Main.terminal_update_job_status master id0 s t)
      <> Main.HTTPException 404 ->
      fst (Main.terminal_update_job_status master id0 s t) = Main.Respond s
      /\ forall j, In j (Main.job_rows t') ->
           Main.job_id j = id0 -> Main.master_id j = Some master ->
           Main.status j = s).
Proof.
  intros t'. subst t'. unfold Main.terminal_update_job_status.
  fold (owned_by master id0).
  assert (Hp : forall j, owned_by master id0 j = true <->
                 Main.job_id j = id0 /\ Main.master_id j = Some master).
  { intros j. unfold owned_by. rewrite andb_true_iff, Z.eqb_eq.
    destruct (Main.master_id j) as [m|].
    - rewrite Z.eqb_eq. split; [by intros [-> ->]|]. by intros [-> [= ->]].
    - split; by intros [_ ?]. }
  pose proof (jobs_rowcount_zero (owned_by master id0) t) as Hz.
  destruct (Main.jobs_rowcount (owned_by master id0) t =? 0)%nat eqn:E.
  - apply Nat.eqb_eq in E. simpl. split; [|done].
    split; [|done]. intros _ j Hj Hc. apply Hp in Hc.
    rewrite (proj1 Hz E j Hj) in Hc. done.
  - apply Nat.eqb_neq in E. simpl. split; [|split; [done|split]].
    + split; [done|]. intros H. exfalso. apply E, Hz. intros j Hj.
      destruct (owned_by master id0 j) eqn:Ej; [|done].
      apply Hp in Ej. by destruct (H j Hj).
    + intros j Hj Hn. apply update_jobs_In. exists j. split; [done|].
      destruct (owned_by master id0 j) eqn:Ej; [|done].
      apply Hp in Ej as [_ ?]. done.
    + intros _. split; [done|]. intros j' Hj' Hid Hm.
      apply update_jobs_In in Hj' as (j & Hj & ->).
      destruct (owned_by master id0 j) eqn:Ej; [done|].
      assert (owned_by master id0 j = true) by (by apply Hp). congruence.
Qed.



Lemma next_job_id_fresh (t : Main.Jobs) :
  Main.job_seq t < Main.next_job_id t
  /\ forall j, In j (Main.job_rows t) -> Main.job_id j < Main.next_job_id t.
Proof.
  unfold Main.next_job_id. generalize (Main.job_rows t). intros l.
  induction l as [|j l [IH1 IH2]]; simpl.
  - split; [lia|done].
  - split; [lia|]. intros j' [<-|Hj']; [lia|].
    specialize (IH2 j' Hj'). lia.
Qed.

Section IntakeProperties.

Context (like : string -> string -> bool).
Context (calculate_pricing : string -> string -> Q).

(** X22.  [process_client_request] adds exactly one job, under an id larger
    than every id in the table and than every id given before, and keeps the
    other rows.  The job is accepted and carries the master exactly when
    [find_available_master] finds a master (of id other than 0) for the
    category in the city Москва; otherwise it is pending, and without master
    when none was found.  The response tells which of the two happened.  The
    new job is tracked as neither departed nor arrived. *)
Theorem process_client_request_spec (request : Main.ClientRequest) (now : Z)
    (db : DB) (t : Main.Jobs) :
  let found :=
    find_available_master like db (Main.req_category request) "Москва" in
  let resp :=
    fst (Main.process_client_request like calculate_pricing request now db t) in
  let t' :=
    snd (Main.process_client_request like calculate_pricing request now db t) in
  (Main.job_seq t < Main.intake_job_id resp
   /\ forall j, In j (Main.job_rows t) ->
        Main.job_id j < Main.intake_job_id resp)
  /\ Main.job_seq t' = Main.intake_job_id resp
  /\ (exists row,
        Main.job_rows t' = Main.job_rows t ++ [row]
        /\ Main.job_id row = Main.intake_job_id resp
        /\ Main.category row = Main.req_category request
        /\ Main.master_id row = found
        /\ (Main.status row = "accepted"%string
            <-> Main.master_assigned resp = true)
        /\ (Main.status row = "pending"%string
            <-> Main.master_assigned resp = false))
  /\ (Main.master_assigned resp = true <->
      exists m, found = Some m /\ m <> 0
                /\ Main.intake_master_id resp = Some m)
  /\ (found = None ->
      Main.master_assigned resp = false
      /\ Main.intake_master_id resp = None)
  /\ (exists tr,
        Main.track_master (Main.intake_job_id resp) t' = Main.Respond tr
        /\ Main.departed tr = false /\ Main.arrived tr = false).
Proof.
  intros found resp t'. subst resp t'. unfold Main.process_client_request.
  fold found. simpl.
  destruct (next_job_id_fresh t) as [Hseq Hrows].
  split; [done|]. split; [done|]. split; [|split; [|split]].
  - eexists. split; [done|]. simpl. repeat (split; [done|]).
    destruct (Main.truthy_id found); split; split; done.
  - unfold Main.truthy_id. destruct found as [m|]; simpl.
    + destruct (m =? 0) eqn:E; simpl.
      * apply Z.eqb_eq in E. split; [done|]. by intros (? & [= <-] & ? & _).
      * apply Z.eqb_neq in E. split; [|done]. intros _. by exists m.
    + split; [done|]. by intros (? & ? & _).
  - by intros ->.
  - unfold Main.track_master. simpl.
    assert (Hf : List.find
                   (fun j => Main.job_id j =? Main.next_job_id t)
                   (Main.job_rows t) = None).
    { destruct (List.find _ (Main.job_rows t)) as [j|] eqn:E; [|done].
      apply find_some in E as [Hj E]. apply Z.eqb_eq in E.
      specialize (Hrows j Hj). lia. }
    revert Hf. generalize (Main.job_rows t). intros l Hf.
    induction l as [|j l IH]; simpl.
    + rewrite Z.eqb_refl. eexists. split; [done|]. done.
    + simpl in Hf. destruct (Main.job_id j =? Main.next_job_id t); [done|].
      by apply IH.
Qed.


End IntakeProperties.

(** * Matching after a change of the schedule *)

Section MatchingAfter.

Context (strftime : Z -> string).
Context (fromisoformat : string -> option time).
Context (like : string -> string -> bool).

Lemma set_master_schedule_rows (db : DB) (m : Z) (s : gmap string DaySchedule)
    (p : Master -> bool) :
  (forall r s', p (with_schedule r s') = p r) ->
  map id (List.filter p (snd (set_master_schedule m s db)))
  = map id (List.filter p db).
Proof.
  intros Hp. unfold set_master_schedule, modify. simpl.
  induction db as [|r db IH]; [done|]. simpl.
  destruct (id r =? m) eqn:E.
  - rewrite Hp. destruct (p r); simpl; by rewrite IH.
  - destruct (p r); simpl; by rewrite IH.
Qed.

Lemma book_is_master_available (db : DB) (m j d m' d' : Z)
    (t : option time) :
  is_master_available strftime (snd (book_master_for_job strftime m j d db))
    m' d' t
  = is_master_available strftime db m' d' t.
Proof.
  destruct (get_master_schedule db m !! strftime d) as [entry|] eqn:E.
  2: { by rewrite book_master_for_job_none. }
  rewrite (book_master_for_job_entry strftime db m j d entry E).
  pose proof (lookup_has_master _ _ _ _ E) as Hm.
  unfold is_master_available.
  destruct (decide (m' = m)) as [->|Hne].
  - rewrite get_master_schedule_set by done.
    destruct (decide (strftime d = strftime d')) as [Hk|Hk].
    + rewrite <- Hk, lookup_insert_eq, E. done.
    + by rewrite lookup_insert_ne.
  - by rewrite get_master_schedule_set_ne.
Qed.

(** X24.  Booking never takes a master out of the matching: the candidates
    of every query are the same list after [book_master_for_job] as before,
    the booked master included, however many jobs the day already holds. *)
Theorem book_master_for_job_candidates (db : DB) (m j d : Z)
    (specialization city0 : string) (d' : Z) (check_time : option time) :
  get_available_masters strftime like
    (snd (book_master_for_job strftime m j d db)) specialization city0 d'
    check_time
  = get_available_masters strftime like db specialization city0 d' check_time.
Proof.
  unfold get_available_masters.
  assert (Hrows :
    map id
      (List.filter
         (fun r => is_active r && String.eqb (city r) city0
                   && like (specializations r) specialization)
         (snd (book_master_for_job strftime m j d db)))
    = map id
        (List.filter
           (fun r => is_active r && String.eqb (city r) city0
                     && like (specializations r) specialization) db)).
  { destruct (get_master_schedule db m !! strftime d) as [entry|] eqn:E.
    - rewrite (book_master_for_job_entry strftime db m j d entry E).
      by apply set_master_schedule_rows.
    - by rewrite book_master_for_job_none. }
  rewrite Hrows. apply filter_ext. intros x. apply book_is_master_available.
Qed.

Lemma update_day_schedule_unavailable (db : DB) (m d : Z)
    (st en : option string) (t : option time) :
  is_master_available strftime
    (snd (update_day_schedule strftime fromisoformat m d false st en db)) m d t
  = false.
Proof.
  rewrite update_day_schedule_eq, parsed_slot_unavailable.
  unfold is_master_available.
  destruct (fetch_master db m) as [r|] eqn:Er.
  - rewrite get_master_schedule_set by (by exists r).
    rewrite lookup_insert_eq. by destruct t.
  - unfold set_master_schedule, modify. simpl.
    rewrite update_rows_absent by (intros [r Hr]; congruence).
    unfold get_master_schedule. rewrite Er. by rewrite lookup_empty.
Qed.

(** X25.  Closing a day takes the master out of the matching for that day:
    after [update_day_schedule] with [available = false] the master is no
    candidate for that date, with or without a time, and
    [find_best_available_master] does not return it, whatever its rating.  The
    same holds for a master whose record has no entry for the date. *)
Theorem closed_day_not_matched (db : DB) (m d : Z)
    (specialization city0 : string) (check_time : option time) :
  (forall st en,
     let db' :=
       snd (update_day_schedule strftime fromisoformat m d false st en db) in
     ~ In m (get_available_masters strftime like db' specialization city0 d
               check_time)
     /\ find_best_available_master strftime like db' specialization city0 d
          check_time <> Some m)
  /\ (get_master_schedule db m !! strftime d = None ->
      ~ In m (get_available_masters strftime like db specialization city0 d
                check_time)
      /\ find_best_available_master strftime like db specialization city0 d
           check_time <> Some m).
Proof.
  assert (Hcand : forall db0,
    is_master_available strftime db0 m d check_time = false ->
    ~ In m (get_available_masters strftime like db0 specialization city0 d
              check_time)
    /\ find_best_available_master strftime like db0 specialization city0 d
         check_time <> Some m).
  { intros db0 Ha.
    assert (Hn : ~ In m (get_available_masters strftime like db0 specialization
                           city0 d check_time)).
    { intros Hin. apply get_available_masters_In in Hin as [_ Hav]. congruence. }
    split; [done|]. intros Hb. apply Hn.
    by apply find_best_available_master_In. }
  split.
  - intros st en db'. apply Hcand. apply update_day_schedule_unavailable.
  - intros Hnone. apply Hcand. unfold is_master_available. by rewrite Hnone.
Qed.

End MatchingAfter.

(** X26.  For well-formed times a slot is the interval of the day between
    its two ends: [t] is in the slot exactly when its instant lies between the
    instants of the start and of the end, both included.  A slot whose start
    is after its end contains no time. *)
Theorem TimeSlot_contains_interval (slot : TimeSlot) (t : time) :
  (time_valid (slot_start slot) -> time_valid (slot_end slot) ->
   time_valid t ->
   TimeSlot_contains slot t = true <->
   microseconds_of_day (slot_start slot) <= microseconds_of_day t
   <= microseconds_of_day (slot_end slot))
  /\ (time_leb (slot_start slot) (slot_end slot) = false ->
      TimeSlot_contains slot t = false).
Proof.
  unfold TimeSlot_contains. split.
  - intros Hs He Ht.
    rewrite andb_true_iff, !time_leb_microseconds by done.
    rewrite !Z.leb_le. done.
  - intros Hinv.
    destruct (time_leb (slot_start slot) t) eqn:E1; [|done].
    destruct (time_leb t (slot_end slot)) eqn:E2; [|done].
    by rewrite (time_leb_trans _ _ _ E1 E2) in Hinv.
Qed.

(** * Examples on concrete stores *)

Lemma strftime_ordinal_inj (d d' : Z) :
  strftime_ordinal d = strftime_ordinal d' -> d = d'.
Proof. apply pretty_Z_inj. Qed.

Lemma has_master_db_demo_1 : has_master db_demo 1.
Proof. eexists. reflexivity. Qed.

(** On Monday master 1 of [db_demo] is available at the two ends of the slot
    09:00 to 18:00. *)
Lemma is_master_available_spec_witness :
  get_master_schedule db_demo 1 !! strftime_ordinal monday
  = Some (mk_DaySchedule monday true (Some (mk_TimeSlot nine eighteen)) [7; 8; 9])
  /\ is_master_available strftime_ordinal db_demo 1 monday (Some nine) = true
  /\ is_master_available strftime_ordinal db_demo 1 monday (Some eighteen) = true.
Proof.
  assert (H : get_master_schedule db_demo 1 !! strftime_ordinal monday
              = Some (mk_DaySchedule monday true
                        (Some (mk_TimeSlot nine eighteen)) [7; 8; 9]))
    by reflexivity.
  split; [exact H|].
  apply (proj1 (proj2 (proj2
           (is_master_available_spec strftime_ordinal db_demo 1 monday) _ H))
         (mk_TimeSlot nine eighteen));
    reflexivity.
Defined.

(** Master 1 confirmed at time 0: at exactly twelve hours no confirmation is
    needed. *)
Lemma needs_schedule_confirmation_spec_witness :
  fetch_master db_demo 1
  = Some (electrician 1 true (Some 5%Q) (Some (open_day monday [7; 8; 9])) (Some 0))
  /\ needs_schedule_confirmation db_demo 1 (hours 12) = false.
Proof.
  assert (H : fetch_master db_demo 1
              = Some (electrician 1 true (Some 5%Q)
                        (Some (open_day monday [7; 8; 9])) (Some 0)))
    by reflexivity.
  split; [exact H|].
  apply (proj2 (proj2
           (proj2 (needs_schedule_confirmation_spec db_demo 1 (hours 12))
              _ 0 H eq_refl)));
    reflexivity.
Defined.

(** Booking job 7 once more on master 1's Monday: the workload goes from 3
    to 4. *)
Lemma book_master_for_job_spec_witness :
  get_master_schedule db_demo 1 !! strftime_ordinal monday
  = Some (mk_DaySchedule monday true (Some (mk_TimeSlot nine eighteen)) [7; 8; 9])
  /\ get_master_workload strftime_ordinal
       (snd (book_master_for_job strftime_ordinal 1 7 monday db_demo)) 1 monday
     = get_master_workload strftime_ordinal db_demo 1 monday + 1.
Proof.
  assert (H : get_master_schedule db_demo 1 !! strftime_ordinal monday
              = Some (mk_DaySchedule monday true
                        (Some (mk_TimeSlot nine eighteen)) [7; 8; 9]))
    by reflexivity.
  split; [exact H|].
  exact (proj2 (proj2 (proj2
           (book_master_for_job_spec strftime_ordinal db_demo 1 7 monday)) _ H)).
Defined.

(** Closing master 1's Monday keeps the three booked jobs and leaves Tuesday
    without entry, as before. *)
Lemma update_day_schedule_frame_witness :
  has_master db_demo 1
  /\ (let db' :=
        snd (update_day_schedule strftime_ordinal fromisoformat_hhmm 1 monday
               false None None db_demo) in
      get_master_schedule db' 1 !! strftime_ordinal (monday + 1)
      = get_master_schedule db_demo 1 !! strftime_ordinal (monday + 1)
      /\ exists slot,
           parsed_slot fromisoformat_hhmm false None None = Return slot
           /\ get_master_schedule db' 1 !! strftime_ordinal monday
              = Some (mk_DaySchedule monday false slot [7; 8; 9])).
Proof.
  split; [exact has_master_db_demo_1|].
  pose proof (update_day_schedule_frame strftime_ordinal fromisoformat_hhmm
                strftime_ordinal_inj db_demo 1 monday false None None
                has_master_db_demo_1) as (_ & Hd & _ & Hret).
  split.
  - apply Hd. lia.
  - exact (proj1 (Hret eq_refl)).
Defined.

(** Opening master 2's Tuesday without times. *)
Lemma update_day_schedule_available_without_slot_witness :
  has_master db_demo 2
  /\ (truthy (Some "09:00"%string) = false \/ truthy None = false)
  /\ (let db' :=
        snd (update_day_schedule strftime_ordinal fromisoformat_hhmm 2
               (monday + 1) true (Some "09:00"%string) None db_demo) in
      get_master_schedule db' 2 !! strftime_ordinal (monday + 1)
      = Some (mk_DaySchedule (monday + 1) true None [])
      /\ is_master_available strftime_ordinal db' 2 (monday + 1) None = true
      /\ is_master_available strftime_ordinal db' 2 (monday + 1) (Some noon)
         = false).
Proof.
  assert (Hm : has_master db_demo 2) by (eexists; reflexivity).
  assert (Hmiss : truthy (Some "09:00"%string) = false \/ truthy None = false)
    by (right; reflexivity).
  split; [exact Hm|]. split; [exact Hmiss|].
  pose proof (update_day_schedule_available_without_slot strftime_ordinal
                fromisoformat_hhmm db_demo 2 (monday + 1)
                (Some "09:00"%string) None Hm Hmiss) as (_ & He & Hn & Ht).
  split; [exact He|]. split; [exact Hn|]. exact (Ht noon).
Defined.

(** A call with a time string that does not parse raises and changes
    nothing. *)
Lemma update_day_schedule_raises_witness :
  fst (update_day_schedule strftime_ordinal fromisoformat_hhmm 1 monday true
         (Some "9am"%string) (Some "18:00"%string) db_demo) = Raise ValueError
  /\ snd (update_day_schedule strftime_ordinal fromisoformat_hhmm 1 monday true
            (Some "9am"%string) (Some "18:00"%string) db_demo) = db_demo.
Proof.
  assert (H : fst (update_day_schedule strftime_ordinal fromisoformat_hhmm 1
                     monday true (Some "9am"%string) (Some "18:00"%string)
                     db_demo) = Raise ValueError) by reflexivity.
  split; [exact H|].
  exact (proj1 (proj2
           (update_day_schedule_raises strftime_ordinal fromisoformat_hhmm
              db_demo 1 monday true (Some "9am"%string) (Some "18:00"%string)))
           H).
Defined.

(** C4 fails on the code: with [available = true] and no times the call
    returns and stores an available entry without slot; with the start after
    the end it returns and stores the slot 18:00 to 09:00. *)
Lemma update_day_schedule_counterexample :
  (fst (update_day_schedule strftime_ordinal fromisoformat_hhmm 1 monday true
          None None db_demo) = Return tt
   /\ get_master_schedule
        (snd (update_day_schedule strftime_ordinal fromisoformat_hhmm 1 monday
                true None None db_demo)) 1 !! strftime_ordinal monday
      = Some (mk_DaySchedule monday true None [7; 8; 9]))
  /\ (time_leb eighteen nine = false
      /\ fst (update_day_schedule strftime_ordinal fromisoformat_hhmm 1 monday
                true (Some "18:00"%string) (Some "09:00"%string) db_demo)
         = Return tt
      /\ get_master_schedule
           (snd (update_day_schedule strftime_ordinal fromisoformat_hhmm 1
                   monday true (Some "18:00"%string) (Some "09:00"%string)
                   db_demo)) 1 !! strftime_ordinal monday
         = Some (mk_DaySchedule monday true
                   (Some (mk_TimeSlot eighteen nine)) [7; 8; 9])).
Proof. repeat split; reflexivity. Qed.

(** A week for master 1 from Monday 2024-01-01 with the default working days:
    Monday is open from 09:00 to 18:00, Saturday is closed, the three booked
    jobs are gone and the record has seven entries. *)
Lemma create_weekly_schedule_spec_witness :
  has_master db_demo 1
  /\ fromisoformat_hhmm "09:00" = Some nine
  /\ fromisoformat_hhmm "18:00" = Some eighteen
  /\ (let db' :=
        snd (create_weekly_schedule strftime_ordinal fromisoformat_hhmm 1
               "09:00" "18:00" None monday db_demo) in
      get_master_schedule db' 1 !! strftime_ordinal (monday + 0)
      = Some (mk_DaySchedule (monday + 0) true
                (Some (mk_TimeSlot nine eighteen)) [])
      /\ get_master_schedule db' 1 !! strftime_ordinal (monday + 5)
         = Some (mk_DaySchedule (monday + 5) false None [])
      /\ size (get_master_schedule db' 1) = 7%nat
      /\ get_master_schedule db' 1 !! strftime_ordinal (monday + 30) = None).
Proof.
  split; [exact has_master_db_demo_1|].
  split; [reflexivity|]. split; [reflexivity|].
  pose proof (create_weekly_schedule_spec strftime_ordinal fromisoformat_hhmm
                strftime_ordinal_inj db_demo 1 "09:00" "18:00" None monday
                nine eighteen has_master_db_demo_1 eq_refl eq_refl)
    as (_ & Hday & Hsize & _ & Hout).
  split; [|split; [|split]].
  - apply (Hday 0); [lia|]. vm_compute. tauto.
  - apply (Hday 5); [lia|]. vm_compute. intros H.
    repeat destruct H as [H|H]; try discriminate H. exact H.
  - exact Hsize.
  - apply Hout. lia.
Defined.

(** [db_demo] satisfies the invariant, and still does after a weekly
    schedule, a closed day and a booking. *)
Lemma DaySchedule_invariant_witness :
  db_inv db_demo
  /\ db_inv
       (run_all strftime_ordinal fromisoformat_hhmm
          [ CreateWeekly 1 "09:00" "18:00" None monday;
            SetDay 1 monday false (Some "09:00"%string) (Some "18:00"%string);
            Book 1 7 monday ]
          db_demo).
Proof.
  assert (H : db_inv db_demo).
  { intros r [<-|[<-|[]]] k e; simpl; unfold open_day;
      intros [_ <-]%lookup_singleton_Some; intros Ha; discriminate Ha. }
  split; [exact H|].
  exact (proj1 (proj2
           (DaySchedule_invariant strftime_ordinal fromisoformat_hhmm db_demo))
           _ H).
Defined.

(** In [db_demo] both masters qualify and master 1 has the higher rating. *)
Lemma find_available_master_spec_witness :
  find_available_master contains db_demo "electrical" "Moscow" = Some 1
  /\ exists r,
       In r db_demo /\ id r = 1 /\ is_active r = true
       /\ terminal_active r = true /\ city r = "Moscow"%string
       /\ contains (specializations r) "electrical" = true.
Proof.
  assert (H : find_available_master contains db_demo "electrical" "Moscow"
              = Some 1) by reflexivity.
  split; [exact H|].
  destruct (proj2 (proj2
              (find_available_master_spec contains db_demo "electrical" "Moscow"))
              1 H) as (r & Hin & Hid & Ha & Ht & Hc & Hl & _).
  exists r. repeat (split; [assumption|]). assumption.
Defined.

(** C8 fails on the code: the only master of [db_terminal_off] is active, in
    the city and matches the category, yet the lookup returns nothing, because
    the terminal is not active. *)
Lemma find_available_master_counterexample :
  find_available_master contains db_terminal_off "electrical" "Moscow" = None
  /\ exists r,
       In r db_terminal_off /\ is_active r = true /\ city r = "Moscow"%string
       /\ contains (specializations r) "electrical" = true.
Proof.
  split; [reflexivity|].
  exists (electrician 1 false (Some 5%Q) None None).
  repeat split. by left.
Qed.

(** C1 fails on the code, by the fallback [rating or 5.0].  In [db_zero] both
    masters are candidates for the Monday and neither has a job.  Master 1 has
    the stored rating 0.0 and master 2 the rating 4.0, so the score
    [rating * 10 - workload] is 0 for master 1 and 40 for master 2, and the
    candidate of maximal score is master 2.  The code takes the zero for a
    missing rating, scores master 1 with 5.0 * 10 - 0 = 50.0 against 40.0,
    and returns master 1. *)
Theorem find_best_available_master_zero_rating :
  get_available_masters strftime_ordinal contains db_zero "electrical" "Moscow"
    monday None = [1; 2]
  /\ fetch_rating db_zero 1 = Some 0%Q
  /\ fetch_rating db_zero 2 = Some 4%Q
  /\ get_master_workload strftime_ordinal db_zero 1 monday = 0
  /\ get_master_workload strftime_ordinal db_zero 2 monday = 0
  /\ (nominal_score strftime_ordinal db_zero monday 1 == 0)%Q
  /\ (nominal_score strftime_ordinal db_zero monday 2 == 40)%Q
  /\ score strftime_ordinal db_zero monday 1 = float_of_int 50
  /\ score strftime_ordinal db_zero monday 2 = float_of_int 40
  /\ find_best_available_master strftime_ordinal contains db_zero "electrical"
       "Moscow" monday None = Some 1.
Proof. repeat split; reflexivity. Qed.

(** The score is rounded as Python rounds it.  In [db_round] both scores are
    15.1 in exact arithmetic; in binary64 the score 1.71 * 10 - 2 of master 2
    is the larger one, and master 2 is returned.  In [db_demo], the example
    of the specification, master 2 is returned with 49.0 against 47.0. *)
Lemma find_best_available_master_rounding :
  SFltb (score strftime_ordinal db_round monday 1)
    (score strftime_ordinal db_round monday 2) = true
  /\ find_best_available_master strftime_ordinal contains db_round
       "electrical" "Moscow" monday None = Some 2
  /\ find_best_available_master strftime_ordinal contains db_demo
       "electrical" "Moscow" monday None = Some 2.
Proof. repeat split; reflexivity. Qed.

(** * Examples of the further properties *)

Lemma has_master_db_demo_2 : has_master db_demo 2.
Proof. eexists. reflexivity. Qed.

Lemma no_master_db_demo_3 : ~ has_master db_demo 3.
Proof. intros [r Hr]. discriminate Hr. Qed.

Lemma monday_entry_db_demo :
  get_master_schedule db_demo 1 !! strftime_ordinal monday = Some monday_entry.
Proof. reflexivity. Qed.

(** Writing a free Monday for master 1 and reading it back. *)
Lemma set_master_schedule_get_witness :
  has_master db_demo 1
  /\ get_master_schedule
       (snd (set_master_schedule 1 (open_day monday []) db_demo)) 1
     = open_day monday [].
Proof.
  split; [exact has_master_db_demo_1|].
  exact (proj1 (set_master_schedule_get db_demo 1 (open_day monday []))
           has_master_db_demo_1).
Defined.

(** Booking for the id 3, which has no row. *)
Lemma unknown_master_noop_witness :
  ~ has_master db_demo 3
  /\ book_master_for_job strftime_ordinal 3 7 monday db_demo
     = (Return tt, db_demo).
Proof.
  split; [exact no_master_db_demo_3|].
  exact (proj1 (proj2 (proj2
           (unknown_master_noop strftime_ordinal fromisoformat_hhmm db_demo 3
              no_master_db_demo_3))) 7 monday).
Defined.

(** Master 1 is a candidate on Monday at noon. *)
Lemma get_available_masters_spec_witness :
  is_master_available strftime_ordinal db_demo 1 monday (Some noon) = true
  /\ In 1 (get_available_masters strftime_ordinal contains db_demo
             "electrical" "Moscow" monday (Some noon)).
Proof.
  assert (H : is_master_available strftime_ordinal db_demo 1 monday (Some noon)
              = true) by reflexivity.
  split; [exact H|].
  apply (proj1 (get_available_masters_spec strftime_ordinal contains db_demo
                  "electrical" "Moscow" monday (Some noon)) 1).
  split; [|exact H].
  eexists. split; [left; reflexivity|]. repeat split.
Defined.

(** The master chosen in [db_demo] is available on that Monday. *)
Lemma find_best_available_master_candidate_witness :
  find_best_available_master strftime_ordinal contains db_demo "electrical"
    "Moscow" monday None = Some 2
  /\ is_master_available strftime_ordinal db_demo 2 monday None = true.
Proof.
  assert (H : find_best_available_master strftime_ordinal contains db_demo
                "electrical" "Moscow" monday None = Some 2) by reflexivity.
  split; [exact H|].
  exact (proj1 (proj2 (proj2
           (find_best_available_master_candidate strftime_ordinal contains
              db_demo "electrical" "Moscow" monday None) 2 H))).
Defined.

(** Closing master 1's Monday keeps its three bookings. *)
Lemma update_day_schedule_keeps_bookings_witness :
  get_master_schedule db_demo 1 !! strftime_ordinal monday = Some monday_entry
  /\ exists entry',
       get_master_schedule
         (snd (update_day_schedule strftime_ordinal fromisoformat_hhmm 1 monday
                 false None None db_demo)) 1 !! strftime_ordinal monday
       = Some entry'
       /\ booked_jobs entry' = booked_jobs monday_entry.
Proof.
  split; [exact monday_entry_db_demo|].
  exact (proj1 (update_day_schedule_keeps_bookings strftime_ordinal
                  fromisoformat_hhmm db_demo 1 monday false None None)
           1 (strftime_ordinal monday) monday_entry monday_entry_db_demo).
Defined.

(** Two more bookings on master 1's Monday. *)
Lemma book_master_for_job_sequence_witness :
  get_master_schedule db_demo 1 !! strftime_ordinal monday = Some monday_entry
  /\ get_master_schedule
       (run_all strftime_ordinal fromisoformat_hhmm
          (map (fun j => Book 1 j monday) [10; 7]) db_demo) 1
       !! strftime_ordinal monday
     = Some (mk_DaySchedule monday true (Some (mk_TimeSlot nine eighteen))
               ([7; 8; 9] ++ [10; 7])).
Proof.
  split; [exact monday_entry_db_demo|].
  exact (proj1 (book_master_for_job_sequence strftime_ordinal
                  fromisoformat_hhmm db_demo 1 monday [10; 7] monday_entry
                  monday_entry_db_demo)).
Defined.

(** A booking on Monday leaves Tuesday's entry of master 1 as it was. *)
Lemma book_master_for_job_frame_witness :
  strftime_ordinal (monday + 1) <> strftime_ordinal monday
  /\ get_master_schedule
       (snd (book_master_for_job strftime_ordinal 1 10 monday db_demo)) 1
       !! strftime_ordinal (monday + 1)
     = get_master_schedule db_demo 1 !! strftime_ordinal (monday + 1).
Proof.
  assert (H : strftime_ordinal (monday + 1) <> strftime_ordinal monday)
    by discriminate.
  split; [exact H|].
  exact (proj1 (proj2
           (book_master_for_job_frame strftime_ordinal db_demo 1 10 monday))
           _ H).
Defined.

(** A weekly schedule with a start time that does not parse. *)
Lemma create_weekly_schedule_raises_witness :
  fst (create_weekly_schedule strftime_ordinal fromisoformat_hhmm 1 "9am"
         "18:00" None monday db_demo) = Raise ValueError
  /\ snd (create_weekly_schedule strftime_ordinal fromisoformat_hhmm 1 "9am"
            "18:00" None monday db_demo) = db_demo.
Proof.
  assert (H : fst (create_weekly_schedule strftime_ordinal fromisoformat_hhmm 1
                     "9am" "18:00" None monday db_demo) = Raise ValueError)
    by reflexivity.
  split; [exact H|].
  exact (proj1 (proj2
           (create_weekly_schedule_raises strftime_ordinal fromisoformat_hhmm
              db_demo 1 "9am" "18:00" None monday)) H).
Defined.

(** The scenario of the test: a week from a Monday, asked at noon. *)
Lemma create_weekly_schedule_available_witness :
  has_master db_demo 1
  /\ fromisoformat_hhmm "09:00" = Some nine
  /\ fromisoformat_hhmm "18:00" = Some eighteen
  /\ is_master_available strftime_ordinal
       (snd (create_weekly_schedule strftime_ordinal fromisoformat_hhmm 1
               "09:00" "18:00" (Some [0; 1; 2; 3; 4]) monday db_demo))
       1 (monday + 0) (Some noon)
     = Zmem (weekday (monday + 0)) [0; 1; 2; 3; 4]
       && time_leb nine noon && time_leb noon eighteen.
Proof.
  split; [exact has_master_db_demo_1|].
  split; [reflexivity|]. split; [reflexivity|].
  refine (proj2 (proj1
            (create_weekly_schedule_available strftime_ordinal
               fromisoformat_hhmm strftime_ordinal_inj db_demo 1 "09:00"
               "18:00" (Some [0; 1; 2; 3; 4]) monday nine eighteen
               has_master_db_demo_1 eq_refl eq_refl) 0 _) noon).
  lia.
Defined.

(** The three jobs of master 1's Monday are gone after a weekly schedule. *)
Lemma create_weekly_schedule_workload_witness :
  has_master db_demo 1
  /\ fst (create_weekly_schedule strftime_ordinal fromisoformat_hhmm 1 "09:00"
            "18:00" None monday db_demo) = Return tt
  /\ get_master_workload strftime_ordinal
       (snd (create_weekly_schedule strftime_ordinal fromisoformat_hhmm 1
               "09:00" "18:00" None monday db_demo)) 1 monday = 0.
Proof.
  assert (H : fst (create_weekly_schedule strftime_ordinal fromisoformat_hhmm 1
                     "09:00" "18:00" None monday db_demo) = Return tt)
    by reflexivity.
  split; [exact has_master_db_demo_1|]. split; [exact H|].
  exact (create_weekly_schedule_workload strftime_ordinal fromisoformat_hhmm
           db_demo 1 "09:00" "18:00" None monday has_master_db_demo_1 H monday).
Defined.

(** A slot from 18:00 to 09:00 for master 2: available, but not at noon. *)
Lemma update_day_schedule_slot_witness :
  has_master db_demo 2
  /\ time_leb eighteen nine = false
  /\ is_master_available strftime_ordinal
       (snd (update_day_schedule strftime_ordinal fromisoformat_hhmm 2 monday
               true (Some "18:00"%string) (Some "09:00"%string) db_demo))
       2 monday (Some noon) = false.
Proof.
  assert (Hinv : time_leb eighteen nine = false) by reflexivity.
  split; [exact has_master_db_demo_2|]. split; [exact Hinv|].
  exact (proj2 (proj2
           (update_day_schedule_slot strftime_ordinal fromisoformat_hhmm
              db_demo 2 monday (Some "18:00"%string) (Some "09:00"%string)
              eighteen nine has_master_db_demo_2 eq_refl eq_refl eq_refl
              eq_refl)) Hinv noon).
Defined.

(** Master 2 confirms at time 0 and is asked again thirteen hours later. *)
Lemma confirm_daily_schedule_spec_witness :
  has_master db_demo 2
  /\ hours 13 - 0 > hours 12
  /\ needs_schedule_confirmation (snd (confirm_daily_schedule 2 0 db_demo)) 2
       (hours 13) = true.
Proof.
  assert (H : hours 13 - 0 > hours 12) by reflexivity.
  split; [exact has_master_db_demo_2|]. split; [exact H|].
  exact (proj2 (proj1 (proj2 (confirm_daily_schedule_spec db_demo 2 0))
                  has_master_db_demo_2 (hours 13)) H).
Defined.

(** Master 1's Monday written and read back. *)
Lemma DaySchedule_dict_roundtrip_witness :
  strptime_ordinal (strftime_ordinal (date monday_entry))
  = Some (date monday_entry)
  /\ DaySchedule_from_dict strptime_ordinal fromisoformat_hms
       (DaySchedule_to_dict strftime_ordinal isoformat_hms monday_entry)
     = Return monday_entry.
Proof.
  assert (H : strptime_ordinal (strftime_ordinal (date monday_entry))
              = Some (date monday_entry)) by reflexivity.
  split; [exact H|].
  apply (proj1 (DaySchedule_dict_roundtrip strftime_ordinal strptime_ordinal
                  isoformat_hms fromisoformat_hms) monday_entry H).
  intros slot [= <-]. split; reflexivity.
Defined.

Lemma has_master_db_terminal_off_1 : has_master db_terminal_off 1.
Proof. eexists. reflexivity. Qed.

(** Activating the terminal of the master of [db_terminal_off]. *)
Lemma activate_terminal_spec_witness :
  has_master db_terminal_off 1
  /\ fst (Main.activate_terminal 1 db_terminal_off) = Main.Respond tt
  /\ Main.activate_terminal 1 (snd (Main.activate_terminal 1 db_terminal_off))
     = (Main.Respond tt, snd (Main.activate_terminal 1 db_terminal_off)).
Proof.
  split; [exact has_master_db_terminal_off_1|].
  pose proof (proj1 (proj2 (proj2 (activate_terminal_spec db_terminal_off 1)))
                has_master_db_terminal_off_1) as (H1 & _ & H3).
  split; [exact H1|exact H3].
Defined.

(** Once its terminal is active the master of [db_terminal_off] is found. *)
Lemma terminal_switch_find_available_master_witness :
  In (electrician 1 false (Some 5%Q) None None) db_terminal_off
  /\ find_available_master contains
       (snd (Main.activate_terminal 1 db_terminal_off)) "electrical" "Moscow"
     <> None.
Proof.
  assert (H : In (electrician 1 false (Some 5%Q) None None) db_terminal_off)
    by (left; reflexivity).
  split; [exact H|].
  exact (proj1 (terminal_switch_find_available_master contains db_terminal_off
                  1)
           (electrician 1 false (Some 5%Q) None None) "electrical" H eq_refl
           eq_refl eq_refl).
Defined.

(** In [db_demo] the lookup returns the head of the listing for Moscow. *)
Lemma get_available_masters_listing_witness :
  truthy (Some "Moscow"%string) = true
  /\ find_available_master contains db_demo "electrical" "Moscow"
     = id <$> head (Main.get_available_masters contains "electrical"
                      (Some "Moscow"%string) db_demo).
Proof.
  split; [reflexivity|].
  exact (proj2 (proj2 (proj2
           (get_available_masters_listing contains db_demo "electrical"
              (Some "Moscow"%string)))) "Moscow"%string eq_refl eq_refl).
Defined.


(** Job 2 is set to completed. *)
Lemma update_job_status_spec_witness :
  In "completed"%string Main.job_statuses
  /\ fst (Main.update_job_status 2 (Some "completed"%string) jobs_demo)
     = Main.Respond "completed"%string.
Proof.
  assert (H : In "completed"%string Main.job_statuses)
    by (simpl; tauto).
  split; [exact H|].
  exact (proj1 (proj1 (proj2 (proj2 (update_job_status_spec jobs_demo 2)))
                  "completed"%string H)).
Defined.

(** Master 2 cannot touch job 2, which belongs to master 1. *)
Lemma terminal_update_job_status_spec_witness :
  (forall j, In j (Main.job_rows jobs_demo) ->
     ~ (Main.job_id j = 2 /\ Main.master_id j = Some 2))
  /\ fst (Main.terminal_update_job_status 2 2 "completed" jobs_demo)
     = Main.HTTPException 404.
Proof.
  assert (H : forall j, In j (Main.job_rows jobs_demo) ->
                ~ (Main.job_id j = 2 /\ Main.master_id j = Some 2)).
  { intros j [<-|[<-|[]]] [H1 H2]; discriminate. }
  split; [exact H|].
  exact (proj2 (proj1
           (terminal_update_job_status_spec jobs_demo 2 2 "completed")) H).
Defined.


(** In [db_round] the second master scores more than the first, after
    rounding, and is returned. *)
Lemma find_best_available_master_first_max_witness :
  get_available_masters strftime_ordinal contains db_round "electrical"
    "Moscow" monday None = [1; 2]
  /\ exists m l1 l2,
       find_best_available_master strftime_ordinal contains db_round
         "electrical" "Moscow" monday None = Some m
       /\ [1; 2] = l1 ++ m :: l2
       /\ (forall x, In x l1 ->
             SFltb (score strftime_ordinal db_round monday x)
               (score strftime_ordinal db_round monday m) = true).
Proof.
  split; [reflexivity|].
  destruct (find_best_available_master_first_max strftime_ordinal contains
              db_round "electrical" "Moscow" monday None)
    as (m & l1 & l2 & Hm & Hl & H1 & _).
  - intros x [<-|[<-|[]]]; discriminate.
  - discriminate.
  - exists m, l1, l2. split; [exact Hm|]. split; [exact Hl|exact H1].
Defined.

(** A body with the location null: the call raises, and job 2 stays as it
    was. *)
Lemma master_depart_location_null :
  Main.master_depart 2 Main.LocationOther (Some (Some "route.png"%string)) 5
    jobs_demo
  = (Main.Escaped Main.AttributeError, jobs_demo).
Proof. reflexivity. Qed.

(** No master of [db_demo] is in Москва: the request stays pending. *)
Lemma process_client_request_spec_witness :
  find_available_master contains db_demo (Main.req_category request_demo)
    "Москва" = None
  /\ Main.master_assigned
       (fst (Main.process_client_request contains flat_pricing request_demo 9
               db_demo jobs_demo)) = false
  /\ Main.intake_master_id
       (fst (Main.process_client_request contains flat_pricing request_demo 9
               db_demo jobs_demo)) = None.
Proof.
  assert (H : find_available_master contains db_demo
                (Main.req_category request_demo) "Москва" = None)
    by reflexivity.
  split; [exact H|].
  exact (proj1 (proj2 (proj2 (proj2 (proj2
           (process_client_request_spec contains flat_pricing request_demo 9
              db_demo jobs_demo))))) H).
Defined.


(** After master 2 closes its Monday, master 1 is chosen. *)
Lemma closed_day_not_matched_witness :
  find_best_available_master strftime_ordinal contains
    (snd (update_day_schedule strftime_ordinal fromisoformat_hhmm 2 monday
            false None None db_demo)) "electrical" "Moscow" monday None
  <> Some 2.
Proof.
  exact (proj2 (proj1
           (closed_day_not_matched strftime_ordinal fromisoformat_hhmm contains
              db_demo 2 monday "electrical" "Moscow" None) None None)).
Defined.

(** Noon is inside the slot from 09:00 to 18:00. *)
Lemma TimeSlot_contains_interval_witness :
  time_valid nine /\ time_valid eighteen /\ time_valid noon
  /\ TimeSlot_contains (mk_TimeSlot nine eighteen) noon = true.
Proof.
  assert (H9 : time_valid nine) by (unfold time_valid; simpl; lia).
  assert (H18 : time_valid eighteen) by (unfold time_valid; simpl; lia).
  assert (H12 : time_valid noon) by (unfold time_valid; simpl; lia).
  split; [exact H9|]. split; [exact H18|]. split; [exact H12|].
  apply (proj1 (TimeSlot_contains_interval (mk_TimeSlot nine eighteen) noon)
           H9 H18 H12).
  vm_compute. split; discriminate.
Defined.
